(** * dg-commons: the anytime Dubins RRT planner and the rocket commands

    A shallow embedding of
    - [dg_commons/planning/sampling_algorithms/anytime_rrt_dubins.py]
      (class [AnytimeRRTDubins]),
    - [dg_commons/sim/models/rocket.py] (classes [RocketCommands],
      [RocketState] and [RocketModel]), and
    - [dg_sim/scenarios/factory.py] ([get_scenario_commonroad_replica]),
    together with the properties the specification states about them and
    further properties of the code.

    Conventions of the embedding.
    - A Python [float] is an exact rational ([Q]); [==] on floats is [Qeq_bool].
      Nothing below depends on rounding, and not-a-number values are outside
      the model.
    - A Python call either returns or raises: [Outcome].  A method of the
      planner also reads and writes [self]: [M], a state and exception monad in
      which the writes made before a raise persist.
    - A [dict] that is iterated is an association list in insertion order with
      unique keys; a [frozendict] that is only looked up is a [gmap]. *)

From Stdlib Require Import QArith Qabs.
From stdpp Require Import base option list strings gmap pretty.

Local Open Scope Q_scope.
Local Open Scope Z_scope.
Local Open Scope string_scope.
Local Open Scope list_scope.
Local Open Scope nat_scope.

(** ** Python values and exceptions *)

Module Py.

Inductive PyError : Type :=
| AssertionError
| AttributeError
| IndexError
| KeyError
| TypeError
| ZeroDivisionError.

Inductive Outcome (A : Type) : Type :=
| Ok (a : A)
| Raise (e : PyError).
Arguments Ok {A} a.
Arguments Raise {A} e.

Definition bindO {A B : Type} (m : Outcome A) (k : A -> Outcome B) : Outcome B :=
  match m with
  | Ok a => k a
  | Raise e => Raise e
  end.

(** [sum(l)] over floats: a left fold starting from [0]. *)
Definition py_sum (l : list Q) : Q := fold_left Qplus l 0%Q.

(** [a < b] on floats. *)
Definition Qlt_bool (a b : Q) : bool := negb (Qle_bool b a).

(** [min(l)] on the list [x :: xs]: the running minimum starts at the first
    item and is replaced only by a strictly smaller one. *)
Definition py_min_from (x : Q) (xs : list Q) : Q :=
  fold_left (fun m y => if Qlt_bool y m then y else m) xs x.

(** [int(q)]: truncation toward zero. *)
Definition py_int (q : Q) : Z := Z.quot (Qnum q) (Z.pos (Qden q)).

(** [a / b] on floats. *)
Definition py_div (a b : Q) : Outcome Q :=
  if Qeq_bool b 0%Q then Raise ZeroDivisionError else Ok (a / b)%Q.

(** [l[i]] for an integer [i]: a negative index counts from the end. *)
Definition py_getitem {A : Type} (l : list A) (i : Z) : Outcome A :=
  let n := Z.of_nat (length l) in
  let j := if (i <? 0)%Z then (n + i)%Z else i in
  if (j <? 0)%Z then Raise IndexError
  else match l !! Z.to_nat j with
       | Some a => Ok a
       | None => Raise IndexError
       end.

(** [d[k]] on a mapping. *)
Definition dict_getitem {V : Type} (d : gmap string V) (k : string) : Outcome V :=
  match d !! k with
  | Some v => Ok v
  | None => Raise KeyError
  end.

End Py.

Import Py.

Notation "x <- m ;; k" := (bindO m (fun x => k))
  (at level 100, m at next level, right associativity, only parsing).

(** ** [RocketCommands] (rocket.py) *)

Module Rocket.

Record RocketCommands : Type := mkRocketCommands {
  F_left : Q;
  F_right : Q;
  dphi : Q
}.

(** [idx = frozendict({"F_left": 0, "F_right": 1, "dphi": 2})] *)
Definition idx : gmap string nat :=
  <["F_left" := 0]> (<["F_right" := 1]> (<["dphi" := 2]> ∅)).

Definition get_n_commands : nat := size idx.

(** A numpy array: its shape and its entries in row-major order. *)
Record ndarray : Type := mkArray {
  shape : list nat;
  data : list Q
}.

(** [z.size] *)
Definition nd_size (z : ndarray) : nat := foldr Nat.mul 1 (shape z).

(** [z.shape[0]] *)
Definition nd_shape0 (z : ndarray) : Outcome nat := py_getitem (shape z) 0%Z.

(** [z[i]] for the arrays that pass the assertion of [from_array] (every
    dimension after the first is 1): the [i]-th entry, an array of one entry
    being read as that entry. *)
Definition nd_getitem (z : ndarray) (i : nat) : Outcome Q :=
  match shape z with
  | [] => Raise IndexError
  | d :: _ => if i <? d then
                match data z !! i with Some q => Ok q | None => Raise IndexError end
              else Raise IndexError
  end.

Definition as_ndarray (c : RocketCommands) : ndarray :=
  mkArray [3] [F_left c; F_right c; dphi c].

(** The generated [__init__(self, F_left, F_right, dphi)] called with keyword
    arguments only: [TypeError] on an unexpected keyword and on a missing
    field. *)
Definition fields : list string := ["F_left"; "F_right"; "dphi"].

Fixpoint kwarg (kwargs : list (string * Q)) (k : string) : option Q :=
  match kwargs with
  | [] => None
  | (k', v) :: rest => if String.eqb k' k then Some v else kwarg rest k
  end.

Definition RocketCommands_init (kwargs : list (string * Q)) : Outcome RocketCommands :=
  if forallb (fun kv => existsb (String.eqb (fst kv)) fields) kwargs then
    match kwarg kwargs "F_left", kwarg kwargs "F_right", kwarg kwargs "dphi" with
    | Some a, Some b, Some c => Ok (mkRocketCommands a b c)
    | _, _, _ => Raise TypeError
    end
  else Raise TypeError.

(** [assert cls.get_n_commands() == z.size == z.shape[0]]: the chained
    comparison evaluates [z.shape[0]] only when the first equality holds. *)
Definition from_array_assert (z : ndarray) : Outcome unit :=
  if get_n_commands =? nd_size z then
    d0 <- nd_shape0 z ;;
    if nd_size z =? d0 then Ok tt else Raise AssertionError
  else Raise AssertionError.

(** [RocketCommands(acc_left=z[cls.idx["acc_left "]], acc_right=z[cls.idx["acc_right"]])]:
    the keyword arguments are evaluated left to right, then the call is made. *)
Definition from_array (z : ndarray) : Outcome RocketCommands :=
  _ <- from_array_assert z ;;
  i <- dict_getitem idx "acc_left " ;;
  a <- nd_getitem z i ;;
  j <- dict_getitem idx "acc_right" ;;
  b <- nd_getitem z j ;;
  RocketCommands_init [("acc_left", a); ("acc_right", b)].

End Rocket.


(** ** More exceptions *)

Module PyExn.

(** What a handler that evaluates ["..." + e.args[0] + "..."] finds as the
    first argument of the exception it caught: none, one that a string cannot
    be concatenated with, or a string. *)
Inductive FirstArg : Type :=
| NoArgument
| NotAString
| Text (msg : string).

(** The exceptions of [PyError] and those that only the code below raises. *)
Inductive Exn : Type :=
| Builtin (e : PyError)
| ValueError
| NotImplementedError
| RuntimeError
| NotSupportedConversion (arg : FirstArg)
| OtherException (name : string).

Inductive Result (A : Type) : Type :=
| Return (a : A)
| Throw (e : Exn).
Arguments Return {A} a.
Arguments Throw {A} e.

Definition bindR {A B : Type} (m : Result A) (k : A -> Result B) : Result B :=
  match m with
  | Return a => k a
  | Throw e => Throw e
  end.

Definition of_outcome {A : Type} (o : Outcome A) : Result A :=
  match o with
  | Ok a => Return a
  | Raise e => Throw (Builtin e)
  end.

End PyExn.

Import PyExn.

Notation "x <== m ;; k" := (bindR m (fun x => k))
  (at level 100, m at next level, right associativity, only parsing).

(** ** [RocketState], the arithmetic of both dataclasses, and [RocketModel]
    (rocket.py) *)

Module RocketState.
Import Rocket.

Record t : Type := mk {
  x : Q;
  y : Q;
  psi : Q;
  m : Q;
  vx : Q;
  vy : Q;
  dpsi : Q;
  phi : Q
}.

(** [idx = frozendict({"x": 0, "y": 1, "psi": 2, "m": 3, "vx": 4, "vy": 5,
    "dpsi": 6, "phi": 7})] *)
Definition idx : gmap string nat :=
  <["x" := 0]> (<["y" := 1]> (<["psi" := 2]> (<["m" := 3]> (<["vx" := 4]>
  (<["vy" := 5]> (<["dpsi" := 6]> (<["phi" := 7]> ∅))))))).

Definition get_n_states : nat := size idx.

Definition as_ndarray (s : t) : ndarray :=
  mkArray [8] [x s; y s; psi s; m s; vx s; vy s; dpsi s; phi s].

Definition fields : list string :=
  ["x"; "y"; "psi"; "m"; "vx"; "vy"; "dpsi"; "phi"].

(** The generated [__init__] called with keyword arguments only. *)
Definition init (kwargs : list (string * Q)) : Outcome t :=
  if forallb (fun kv => existsb (String.eqb (fst kv)) fields) kwargs then
    match kwarg kwargs "x", kwarg kwargs "y", kwarg kwargs "psi", kwarg kwargs "m",
          kwarg kwargs "vx", kwarg kwargs "vy", kwarg kwargs "dpsi", kwarg kwargs "phi" with
    | Some a, Some b, Some c, Some d, Some e, Some f, Some g, Some h =>
        Ok (mk a b c d e f g h)
    | _, _, _, _, _, _, _, _ => Raise TypeError
    end
  else Raise TypeError.

(** [assert cls.get_n_states() == z.size == z.shape[0]] *)
Definition from_array_assert (z : ndarray) : Outcome unit :=
  if get_n_states =? nd_size z then
    d0 <- nd_shape0 z ;;
    if nd_size z =? d0 then Ok tt else Raise AssertionError
  else Raise AssertionError.

(** [z[cls.idx[k]]] *)
Definition entry (z : ndarray) (k : string) : Outcome Q :=
  i <- dict_getitem idx k ;;
  nd_getitem z i.

Definition from_array (z : ndarray) : Outcome t :=
  _ <- from_array_assert z ;;
  a <- entry z "x" ;;
  b <- entry z "y" ;;
  c <- entry z "psi" ;;
  d <- entry z "m" ;;
  e <- entry z "vx" ;;
  f <- entry z "vy" ;;
  g <- entry z "dpsi" ;;
  h <- entry z "phi" ;;
  init [("x", a); ("y", b); ("psi", c); ("m", d);
        ("vx", e); ("vy", f); ("dpsi", g); ("phi", h)].

(** [__mul__]: [replace(self, x=self.x * val, ...)] *)
Definition mul (self : t) (val : Q) : t :=
  mk (x self * val) (y self * val) (psi self * val) (m self * val)
     (vx self * val) (vy self * val) (dpsi self * val) (phi self * val).

End RocketState.

Module RocketArith.
Import Rocket.

(** The second operand of an operator, by its type. *)
Inductive PyObj : Type :=
| Commands (c : RocketCommands)
| State (s : RocketState.t)
| Float (q : Q).

(** [RocketCommands.__add__]; [__radd__] is the same function. *)
Definition add (self : RocketCommands) (other : PyObj) : Result RocketCommands :=
  match other with
  | Commands o =>
      Return (mkRocketCommands (F_left self + F_left o) (F_right self + F_right o)
                               (dphi self + dphi o))
  | _ => Throw NotImplementedError
  end.

Definition radd : RocketCommands -> PyObj -> Result RocketCommands := add.

(** [RocketCommands.__mul__]; [__rmul__] is the same function. *)
Definition mul (self : RocketCommands) (val : Q) : RocketCommands :=
  mkRocketCommands (F_left self * val) (F_right self * val) (dphi self * val).

(** [RocketState.__add__]; [__radd__] is the same function. *)
Definition state_add (self : RocketState.t) (other : PyObj) : Result RocketState.t :=
  match other with
  | State o =>
      Return (RocketState.mk
                (RocketState.x self + RocketState.x o) (RocketState.y self + RocketState.y o)
                (RocketState.psi self + RocketState.psi o) (RocketState.m self + RocketState.m o)
                (RocketState.vx self + RocketState.vx o) (RocketState.vy self + RocketState.vy o)
                (RocketState.dpsi self + RocketState.dpsi o)
                (RocketState.phi self + RocketState.phi o))
  | _ => Throw NotImplementedError
  end.

(** [other * -1.0], by the type of [other]. *)
Definition negated (other : PyObj) : PyObj :=
  match other with
  | Commands o => Commands (mul o (-1))
  | State o => State (RocketState.mul o (-1))
  | Float q => Float (q * -1)
  end.

(** [__sub__]: [self + (other * -1.0)] *)
Definition sub (self : RocketCommands) (other : PyObj) : Result RocketCommands :=
  add self (negated other).

Definition state_sub (self : RocketState.t) (other : PyObj) : Result RocketState.t :=
  state_add self (negated other).


Definition state_truediv (self : RocketState.t) (val : Q) : Result RocketState.t :=
  r <== of_outcome (py_div 1 val) ;;
  Return (RocketState.mul self r).

(** [a + b]: the left operand's [__add__]; a float on the left does not know
    the dataclasses and hands over to the right operand's [__radd__]. *)
Definition py_add (a b : PyObj) : Result PyObj :=
  match a with
  | Commands c => r <== add c b ;; Return (Commands r)
  | State s => r <== state_add s b ;; Return (State r)
  | Float p =>
      match b with
      | Float q => Return (Float (p + q))
      | Commands c => r <== radd c a ;; Return (Commands r)
      | State s => r <== state_add s a ;; Return (State r)
      end
  end.

(** [sum(items, start)]: [start + items[0] + items[1] + ...], from the left. *)
Fixpoint sum_from (start : PyObj) (items : list PyObj) : Result PyObj :=
  match items with
  | [] => Return start
  | item :: rest => acc <== py_add start item ;; sum_from acc rest
  end.

(** [sum(items)]: the start is [0]. *)
Definition sum (items : list PyObj) : Result PyObj := sum_from (Float 0) items.

End RocketArith.

Module Numpy.
Import Rocket.

(** [np.zeros([n])] *)
Definition zeros (n : nat) : ndarray := mkArray [n] (repeat 0%Q n).

(** [np.concatenate([a, b])], along the first axis: both need a first axis
    and the same remaining shape. *)
Definition concatenate (a b : ndarray) : Result ndarray :=
  match shape a, shape b with
  | da :: ra, db :: rb =>
      if bool_decide (ra = rb) then Return (mkArray (da + db :: ra) (data a ++ data b))
      else Throw ValueError
  | _, _ => Throw ValueError
  end.

(** [y[0:n]] *)
Definition slice_to (y : ndarray) (n : nat) : Outcome ndarray :=
  match shape y with
  | [] => Raise IndexError
  | d :: rest =>
      Ok (mkArray (Nat.min n d :: rest)
                  (take (Nat.min n d * foldr Nat.mul 1 rest) (data y)))
  end.

End Numpy.

(** What [RocketModel] uses and the sources at hand do not hold: the fields
    of the geometry and of the parameters it reads, the two limiters of
    [model_utils], [math.sin] and [math.cos], the rotation of the geometry
    library as its 2x2 matrix, and the integrator, of whose result only
    [success] and the last column of [y] are read. *)
Record IvpResult : Type := mkIvpResult {
  success : bool;
  last_column : Rocket.ndarray
}.

Class RocketEnv (RocketGeometry RocketParameters : Type) : Type := {
  C_T : RocketParameters -> Q;
  Iz : RocketGeometry -> Q;
  l_m : RocketGeometry -> Q;
  apply_force_limits : Q -> RocketParameters -> Q;
  apply_full_ang_vel_limits : Q -> Q -> RocketParameters -> Q;
  sin : Q -> Q;
  cos : Q -> Q;
  SO2_from_angle : Q -> (Q * Q) * (Q * Q);
  solve_ivp :
    (Q -> Rocket.ndarray -> Result Rocket.ndarray) -> Q * Q -> Rocket.ndarray -> IvpResult
}.

Module RocketModel.
Import Rocket.

Section WithEnv.

Context {RocketGeometry RocketParameters : Type}
        {Env : RocketEnv RocketGeometry RocketParameters}.

(** [has_collided] is an attribute of the base class [SimModel]. *)
Record t : Type := mk {
  _state : RocketState.t;
  has_collided : bool;
  rg : RocketGeometry;
  rp : RocketParameters
}.

Definition set_state (v : RocketState.t) (self : t) : t :=
  mk v (has_collided self) (rg self) (rp self).

(** The vector [update] hands to the integrator:
    [np.concatenate([self._state.as_ndarray(), commands.as_ndarray()])]. *)
Definition pack (state : RocketState.t) (commands : RocketCommands) : Result ndarray :=
  Numpy.concatenate (RocketState.as_ndarray state) (as_ndarray commands).

(** The commands the right-hand side works with: none after a collision. *)
Definition no_thrust : RocketCommands := mkRocketCommands 0 0 0.

Definition effective (self : t) (c : RocketCommands) : RocketCommands :=
  if has_collided self then no_thrust else c.

(** [y[RocketCommands.idx[k] + n_states]] *)
Definition action_entry (y : ndarray) (k : string) : Outcome Q :=
  i <- dict_getitem idx k ;;
  nd_getitem y (i + RocketState.get_n_states).

Definition _stateactions_from_array (self : t) (y : ndarray)
  : Outcome (RocketState.t * RocketCommands) :=
  let n_states := RocketState.get_n_states in
  z <- Numpy.slice_to y n_states ;;
  state <- RocketState.from_array z ;;
  actions <-
    (if has_collided self then
       RocketCommands_init [("F_left", 0%Q); ("F_right", 0%Q); ("dphi", 0%Q)]
     else
       a <- action_entry y "F_left" ;;
       b <- action_entry y "F_right" ;;
       c <- action_entry y "dphi" ;;
       RocketCommands_init [("F_left", a); ("F_right", b); ("dphi", c)]) ;;
  Ok (state, actions).

(** The state derivative.  [1/m] and [1/self.rg.Iz] are divisions of floats:
    they raise [ZeroDivisionError] on a zero divisor. *)
Definition dynamics (self : t) (x0 : RocketState.t) (u : RocketCommands)
  : Outcome RocketState.t :=
  let F_lx := apply_force_limits (F_left u) (rp self) in
  let F_rx := apply_force_limits (F_right u) (rp self) in
  let dphi := apply_full_ang_vel_limits (RocketState.phi x0) (dphi u) (rp self) in
  let psi := RocketState.psi x0 in
  let dpsi := RocketState.dpsi x0 in
  let m := RocketState.m x0 in
  let vx := RocketState.vx x0 in
  let vy := RocketState.vy x0 in
  let phi := RocketState.phi x0 in
  let dx := vx in
  let dy := vy in
  let dm := (- C_T (rp self) * (F_lx + F_rx))%Q in
  inv_m <- py_div 1 m ;;
  let dvx := (inv_m * (sin (phi + psi) * F_lx + sin (phi - psi) * F_rx))%Q in
  inv_m' <- py_div 1 m ;;
  let dvy := (inv_m' * (- cos (phi + psi) * F_lx + cos (phi - psi) * F_rx))%Q in
  inv_Iz <- py_div 1 (Iz (rg self)) ;;
  let dvpsi := (inv_Iz * l_m (rg self) * cos phi * (F_rx - F_lx))%Q in
  Ok (RocketState.mk dx dy dpsi dm dvx dvy dvpsi dphi).

(** The right-hand side given to the integrator. *)
Definition _dynamics (self : t) (time : Q) (y : ndarray) : Result ndarray :=
  sa <== of_outcome (_stateactions_from_array self y) ;;
  dx <== of_outcome (dynamics self (fst sa) (snd sa)) ;;
  let du := Numpy.zeros (size idx) in
  Numpy.concatenate (RocketState.as_ndarray dx) du.

Definition update (self : t) (commands : RocketCommands) (dt : Q) : Result t :=
  y0 <== pack (_state self) commands ;;
  let result := solve_ivp (_dynamics self) (0%Q, dt) y0 in
  if negb (success result) then Throw RuntimeError
  else
    sa <== of_outcome (_stateactions_from_array self (last_column result)) ;;
    Return (set_state (fst sa) self).

(** [rot @ v] for a 2x2 matrix and a vector of two entries. *)
Definition matvec (rot : (Q * Q) * (Q * Q)) (v : Q * Q) : Q * Q :=
  ((fst (fst rot) * fst v + snd (fst rot) * snd v)%Q,
   (fst (snd rot) * fst v + snd (snd rot) * snd v)%Q).

Definition get_velocity (self : t) (in_model_frame : bool) : (Q * Q) * Q :=
  let vx := RocketState.vx (_state self) in
  let vy := RocketState.vy (_state self) in
  let dpsi := RocketState.dpsi (_state self) in
  let v_l := (vx, vy) in
  if in_model_frame then (v_l, dpsi)
  else
    let rot := SO2_from_angle (RocketState.psi (_state self)) in
    (matvec rot v_l, dpsi).

Definition set_velocity (self : t) (vel : Q * Q) (dpsi : Q) (in_model_frame : bool) : t :=
  let vel :=
    if negb in_model_frame
    then matvec (SO2_from_angle (- RocketState.psi (_state self))%Q) vel
    else vel in
  let s := _state self in
  set_state (RocketState.mk (RocketState.x s) (RocketState.y s) (RocketState.psi s)
                            (RocketState.m s) (fst vel) (snd vel) dpsi (RocketState.phi s))
            self.

End WithEnv.

Arguments t : clear implicits.

End RocketModel.

(** A concrete rocket for evaluation: the geometry is the pair of [Iz] and
    [l_m], the parameters are [C_T]; thrusts are limited to [[0, 2]], the
    nozzle rate is passed on; sine and cosine are their small-angle values;
    the rotation is built from these; the integrator takes one explicit
    Euler step over the whole span. *)

Module RocketDemo.
Import Rocket.

Definition clamp (lo hi v : Q) : Q :=
  if Qlt_bool v lo then lo else if Qlt_bool hi v then hi else v.

Definition euler_step (f : Q -> ndarray -> Result ndarray) (t_span : Q * Q) (y0 : ndarray)
  : IvpResult :=
  match f (fst t_span) y0 with
  | Return dy =>
      mkIvpResult true
        (mkArray (shape y0)
                 (zip_with (fun y d => (y + (snd t_span - fst t_span) * d)%Q)
                           (data y0) (data dy)))
  | Throw _ => mkIvpResult false y0
  end.

Definition env : RocketEnv (Q * Q) Q := {|
  C_T := fun rp => rp;
  Iz := fst;
  l_m := snd;
  apply_force_limits := fun f _ => clamp 0 2 f;
  apply_full_ang_vel_limits := fun _ dphi _ => dphi;
  sin := fun a => a;
  cos := fun _ => 1%Q;
  SO2_from_angle := fun a => ((1%Q, (- a)%Q), (a, 1%Q));
  solve_ivp := euler_step
|}.

Definition start : RocketState.t :=
  RocketState.mk (-8) (-8) 0 (21 # 10) 0 0 0 0.

Definition rocket : RocketModel.t (Q * Q) Q :=
  RocketModel.mk start false (1%Q, 1%Q) (1 # 10).

Definition full_thrust : RocketCommands := mkRocketCommands 2 2 0.

End RocketDemo.

(** ** [get_scenario_commonroad_replica] (dg_sim/scenarios/factory.py) *)

(** What the function calls and the sources at hand do not hold: the loader,
    the two attributes of a scenario it reads, the converter of a dynamic
    obstacle (called with a colour for the ego player, without one
    otherwise), and the default simulation parameters.  The loader and the
    converter may raise; a [NotSupportedConversion] comes with whatever first
    argument its raiser gave it. *)
Class CommonRoad (Scenario Problems Obstacle Lanelets Model Agent SimParameters : Type)
  : Type := {
  load_commonroad_scenario : string -> Result (Scenario * Problems);
  dynamic_obstacles : Scenario -> list Obstacle;
  lanelet_network : Scenario -> Lanelets;
  model_agent_from_dynamic_obstacle :
    Obstacle -> Lanelets -> option string -> Result (Model * Agent);
  default_parameters : SimParameters
}.

Module Factory.

Inductive LogLine : Type :=
| Warn (msg : string)
| Info (msg : string).

Section WithCommonRoad.

Context {Scenario Problems Obstacle Lanelets Model Agent SimParameters : Type}
        {CR : CommonRoad Scenario Problems Obstacle Lanelets Model Agent SimParameters}.

(** The keyword arguments the returned [SimContext] is built from; its [log]
    is a fresh [SimLog()]. *)
Record SimContext : Type := mkSimContext {
  scenario : Scenario;
  models : gmap string Model;
  players : gmap string Agent;
  param : SimParameters
}.

(** [PlayerName(f"P{i}")] *)
Definition player_name (i : nat) : string := "P" +:+ pretty i.

(** The dictionaries and the lines logged so far. *)
Definition Loaded : Type := gmap string Agent * gmap string Model * list LogLine.

(** The body of the loop for the obstacle of index [i].  The handler reads
    [e.args[0]] and concatenates it with two strings before it logs: without
    a first argument that is an [IndexError], with one that is no string a
    [TypeError], raised from within the handler. *)
Definition load_one (ego_player : option string) (net : Lanelets)
    (acc : Loaded) (i : nat) (dyn_obs : Obstacle) : Result Loaded :=
  let playername := player_name i in
  let converted :=
    if bool_decide (Some playername = ego_player)
    then (("Ego" : string),
          model_agent_from_dynamic_obstacle dyn_obs net (Some "firebrick"))
    else (playername, model_agent_from_dynamic_obstacle dyn_obs net None) in
  match snd converted with
  | Return (model, agent) =>
      Return (<[fst converted := agent]> (fst (fst acc)),
              <[fst converted := model]> (snd (fst acc)),
              snd acc)
  | Throw (NotSupportedConversion (Text msg)) =>
      Return (fst acc,
              snd acc ++ [Warn ("Unable to convert commonroad dynamic obstacle due to "
                                +:+ msg +:+ " skipping...")])
  | Throw (NotSupportedConversion NoArgument) => Throw (Builtin IndexError)
  | Throw (NotSupportedConversion NotAString) => Throw (Builtin TypeError)
  | Throw e => Throw e
  end.

(** [for i, dyn_obs in enumerate(scenario.dynamic_obstacles)], from index [i]. *)
Fixpoint load_from (ego_player : option string) (net : Lanelets)
    (i : nat) (obstacles : list Obstacle) (acc : Loaded) : Result Loaded :=
  match obstacles with
  | [] => Return acc
  | dyn_obs :: rest =>
      acc' <== load_one ego_player net acc i dyn_obs ;;
      load_from ego_player net (S i) rest acc'
  end.

(** Returns the context and the lines it logged. *)
Definition get_scenario_commonroad_replica (scenario_name : string)
    (sim_param : option SimParameters) (ego_player : option string)
  : Result (SimContext * list LogLine) :=
  loaded <== load_commonroad_scenario scenario_name ;;
  let scenario := fst loaded in
  acc <== load_from ego_player (lanelet_network scenario) 0
                    (dynamic_obstacles scenario) (∅, ∅, []) ;;
  let players := fst (fst acc) in
  let models := snd (fst acc) in
  let logs := snd acc ++ [Info ("Managed to load " +:+ pretty (size players))] in
  let sim_param := match sim_param with None => default_parameters | Some p => p end in
  Return (mkSimContext scenario models players sim_param, logs).

(** The name the obstacle of index [i] is stored under, and how its
    conversion is called. *)
Definition stored_name (ego_player : option string) (i : nat) : string :=
  if bool_decide (Some (player_name i) = ego_player) then "Ego" else player_name i.

Definition conversion (ego_player : option string) (net : Lanelets)
    (i : nat) (dyn_obs : Obstacle) : Result (Model * Agent) :=
  model_agent_from_dynamic_obstacle
    dyn_obs net
    (if bool_decide (Some (player_name i) = ego_player) then Some "firebrick" else None).

(** A conversion that the loop gets past: it returns, or it raises a
    [NotSupportedConversion] whose first argument is a string. *)
Definition passable (r : Result (Model * Agent)) : bool :=
  match r with
  | Return _ => true
  | Throw (NotSupportedConversion (Text _)) => true
  | Throw _ => false
  end.

(** What leaves the loop when a conversion raises [e] and the loop does not
    get past it: [e] itself, or what the handler raises on reading it. *)
Definition raised_for (e : Exn) : Exn :=
  match e with
  | NotSupportedConversion NoArgument => Builtin IndexError
  | NotSupportedConversion NotAString => Builtin TypeError
  | e => e
  end.

Definition is_warn (l : LogLine) : bool :=
  match l with Warn _ => true | Info _ => false end.

(** How many of the obstacles, counted from index [i], are converted. *)
Fixpoint converted_from (ego_player : option string) (net : Lanelets)
    (i : nat) (obstacles : list Obstacle) : nat :=
  match obstacles with
  | [] => 0
  | dyn_obs :: rest =>
      (match conversion ego_player net i dyn_obs with Return _ => 1 | Throw _ => 0 end)
      + converted_from ego_player net (S i) rest
  end.

End WithCommonRoad.

Arguments SimContext : clear implicits.

End Factory.

(** A concrete CommonRoad for evaluation: a scenario is the list of its
    dynamic obstacles, each a number; the obstacle [0] is of a kind the
    converter does not support, any other is converted to itself as model
    and, with the colour asked for, as agent; the one scenario that can be
    loaded is ["three"]. *)

Module FactoryDemo.

Definition load (name : string) : Result (list nat * unit) :=
  if String.eqb name "three" then Return ([1; 0; 2], tt)
  else Throw (OtherException "FileNotFoundError").

Definition convert (o : nat) (_ : unit) (color : option string)
  : Result (nat * (nat * option string)) :=
  match o with
  | O => Throw (NotSupportedConversion (Text "pedestrian"))
  | S _ => Return (o, (o, color))
  end.

Definition commonroad : CommonRoad (list nat) unit nat unit nat (nat * option string) nat := {|
  load_commonroad_scenario := load;
  dynamic_obstacles := fun sc => sc;
  lanelet_network := fun _ => tt;
  model_agent_from_dynamic_obstacle := convert;
  default_parameters := 0
|}.

(** The same CommonRoad with a converter that raises its
    [NotSupportedConversion] without an argument. *)
Definition convert_bare (o : nat) (_ : unit) (color : option string)
  : Result (nat * (nat * option string)) :=
  match o with
  | O => Throw (NotSupportedConversion NoArgument)
  | S _ => Return (o, (o, color))
  end.

Definition commonroad_bare
  : CommonRoad (list nat) unit nat unit nat (nat * option string) nat := {|
  load_commonroad_scenario := load;
  dynamic_obstacles := fun sc => sc;
  lanelet_network := fun _ => tt;
  model_agent_from_dynamic_obstacle := convert_bare;
  default_parameters := 0
|}.

(** The scenario ["three"] with [P2] as ego player. *)
Definition three : Result (Factory.SimContext (list nat) nat (nat * option string) nat
                           * list Factory.LogLine) :=
  Factory.get_scenario_commonroad_replica (CR:=commonroad) "three" None (Some "P2").

End FactoryDemo.

(** ** Data model of the planner *)

Module SE2Transform.
(** [SE2Transform(p=np.array([x, y]), theta=...)] *)
Record t : Type := mk { p : Q * Q; theta : Q }.
End SE2Transform.

Module VehicleStateDyn.
(** The fields [reached_goal] passes to [VehicleStateDyn(...)]. *)
Record t : Type := mk { x : Q; y : Q; theta : Q; vx : Q; delta : Q }.
End VehicleStateDyn.

Module AnyNode.
(** A tree vertex.  [parent] is a reference to another node of the tree; it
    is held as that node's id, the key under which the tree stores it. *)
Record t : Type := mk {
  id : string;
  pose : SE2Transform.t;
  path : list SE2Transform.t;
  cost : Q;
  parent : option string
}.

Definition set_id (v : string) (n : t) : t := mk v (pose n) (path n) (cost n) (parent n).
Definition set_path (v : list SE2Transform.t) (n : t) : t := mk (id n) (pose n) v (cost n) (parent n).
Definition set_cost (v : Q) (n : t) : t := mk (id n) (pose n) (path n) v (parent n).
Definition set_parent (v : option string) (n : t) : t := mk (id n) (pose n) (path n) (cost n) v.
End AnyNode.

Module Path.
(** What [Tree.find_best_path] returns and [self.path] stores: the pose
    sequence [path] and its total length. *)
Record t : Type := mk { path : list SE2Transform.t; length : Q }.
End Path.

(** Truth value of an optional object reference ([if node:]). *)
Definition truthy {A : Type} (o : option A) : bool :=
  match o with Some _ => true | None => false end.

Module Tree.
(** The [tree] attribute of the tree object: the mapping from id to node, in
    insertion order. *)
Definition t : Type := list (string * AnyNode.t).

Definition keys (tr : t) : list string := map fst tr.
Definition values (tr : t) : list AnyNode.t := map snd tr.

(** Modelled from the spec: [Tree.insert(node)], absent from the sources,
    adds the node to the mapping under its id and fails (an invariant
    violation) if the id already exists. *)
Definition insert (node : AnyNode.t) (tr : t) : Outcome t :=
  if existsb (String.eqb (AnyNode.id node)) (keys tr) then Raise AssertionError
  else Ok (tr ++ [(AnyNode.id node, node)]).

(** Modelled from the spec: [Tree.set_child(parent, child)], absent from the
    sources, sets [child.parent = parent] and does not insert the child. *)
Definition set_child (parent : option AnyNode.t) (child : AnyNode.t) : AnyNode.t :=
  AnyNode.set_parent (option_map AnyNode.id parent) child.

(** Modelled from the spec: [Tree.remove()], absent from the sources, clears
    all tree content and leaves an empty structure. *)
Definition remove (tr : t) : t := [].

(** Modelled from the spec: the nearest-node query, absent from the sources,
    is a linear scan for the node whose position is closest to the query's
    (heading ignored), the first encountered winning a tie.  The squared
    distance is compared, which orders positions as the distance does. *)
Definition dist2 (a b : SE2Transform.t) : Q :=
  let dx := (fst (SE2Transform.p a) - fst (SE2Transform.p b))%Q in
  let dy := (snd (SE2Transform.p a) - snd (SE2Transform.p b))%Q in
  (dx * dx + dy * dy)%Q.

Definition closer (q : SE2Transform.t) (best n : AnyNode.t) : AnyNode.t :=
  if Qlt_bool (dist2 (AnyNode.pose n) q) (dist2 (AnyNode.pose best) q) then n else best.

Definition nearest (tr : t) (q : SE2Transform.t) : option AnyNode.t :=
  match values tr with
  | [] => None
  | n :: rest => Some (fold_left (closer q) rest n)
  end.
End Tree.

(** ** The planner object *)

Section PlannerState.

Context {Rng Scenario : Type}.

(** The attributes of [self] that the methods below read or write, the state
    of the seeded sampler ([rng]) and the scenario the collision checks are
    made against. *)
Record Planner : Type := mkPlanner {
  max_iter : Z;
  expand_dis : Q;
  path_resolution : Q;
  search_until_max_iter : bool;
  expand_iter : Z;
  curvature : Q;
  tree : Tree.t;
  number_nodes : Z;
  path : option Path.t;
  rng : Rng;
  scenario : Scenario
}.

Definition set_curvature (v : Q) (s : Planner) : Planner :=
  mkPlanner (max_iter s) (expand_dis s) (path_resolution s) (search_until_max_iter s)
            (expand_iter s) v (tree s) (number_nodes s) (path s) (rng s) (scenario s).
Definition set_tree (v : Tree.t) (s : Planner) : Planner :=
  mkPlanner (max_iter s) (expand_dis s) (path_resolution s) (search_until_max_iter s)
            (expand_iter s) (curvature s) v (number_nodes s) (path s) (rng s) (scenario s).
Definition set_number_nodes (v : Z) (s : Planner) : Planner :=
  mkPlanner (max_iter s) (expand_dis s) (path_resolution s) (search_until_max_iter s)
            (expand_iter s) (curvature s) (tree s) v (path s) (rng s) (scenario s).
Definition set_path (v : option Path.t) (s : Planner) : Planner :=
  mkPlanner (max_iter s) (expand_dis s) (path_resolution s) (search_until_max_iter s)
            (expand_iter s) (curvature s) (tree s) (number_nodes s) v (rng s) (scenario s).
Definition set_rng (v : Rng) (s : Planner) : Planner :=
  mkPlanner (max_iter s) (expand_dis s) (path_resolution s) (search_until_max_iter s)
            (expand_iter s) (curvature s) (tree s) (number_nodes s) (path s) v (scenario s).
(** The scenario is changed from outside, between two calls. *)
Definition set_scenario (v : Scenario) (s : Planner) : Planner :=
  mkPlanner (max_iter s) (expand_dis s) (path_resolution s) (search_until_max_iter s)
            (expand_iter s) (curvature s) (tree s) (number_nodes s) (path s) (rng s) v.

(** A method: it runs on [self], returns or raises, and leaves [self] as it
    was at that point. *)
Definition M (A : Type) : Type := Planner -> Outcome A * Planner.

Definition ret {A : Type} (a : A) : M A := fun s => (Ok a, s).
Definition raise {A : Type} (e : PyError) : M A := fun s => (Raise e, s).
Definition bindM {A B : Type} (m : M A) (k : A -> M B) : M B :=
  fun s => match m s with
           | (Ok a, s') => k a s'
           | (Raise e, s') => (Raise e, s')
           end.
Definition lift {A : Type} (o : Outcome A) : M A := fun s => (o, s).
Definition get : M Planner := fun s => (Ok s, s).
Definition modify (f : Planner -> Planner) : M unit := fun s => (Ok tt, f s).

End PlannerState.

Arguments Planner : clear implicits.

Notation "x <~ m ;; k" := (bindM m (fun x => k))
  (at level 100, m at next level, right associativity, only parsing).
Notation "m ;;; k" := (bindM m (fun _ => k))
  (at level 100, right associativity, only parsing).

(** ** Collaborators absent from the sources

    The Dubins generator ([dubins_path.dubins_path_planning]), the node class,
    the base class [AnytimeRRT] (constructor, sampler, pruning, validity
    check), the tree's path extraction, the collision oracle and the goal are
    not part of the sources at hand.  They are taken as an interface of total
    functions: what they compute is left open, and a call of them does not
    raise. *)

Record InitArgs (Scenario : Type) : Type := mkInitArgs {
  arg_scenario : Scenario;
  arg_initial_pose : SE2Transform.t;
  arg_max_iter : Z;
  arg_goal_sample_rate : Z;
  arg_expand_dis : Q;
  arg_path_resolution : Q;
  arg_search_until_max_iter : bool;
  arg_seed : Z;
  arg_expand_iter : Z
}.
Arguments mkInitArgs {Scenario}.
Arguments arg_scenario {Scenario}.
Arguments arg_initial_pose {Scenario}.
Arguments arg_max_iter {Scenario}.
Arguments arg_goal_sample_rate {Scenario}.
Arguments arg_expand_dis {Scenario}.
Arguments arg_path_resolution {Scenario}.
Arguments arg_search_until_max_iter {Scenario}.
Arguments arg_seed {Scenario}.
Arguments arg_expand_iter {Scenario}.

Class External (Rng Scenario Mode : Type) : Type := {
  (** [dubins_path_planning(s_x, s_y, s_yaw, g_x, g_y, g_yaw, curvature, step_size)]
      returns the sampled path, the mode and the three segment lengths. *)
  dubins_path_planning :
    Q -> Q -> Q -> Q -> Q -> Q -> Q -> Q -> list SE2Transform.t * Mode * list Q;
  (** The cost a freshly constructed [AnyNode] carries. *)
  AnyNode_default_cost : Q;
  (** [AnytimeRRT.__init__]: builds the tree with its root and seeds the
      sampler, once. *)
  AnytimeRRT_init : InitArgs Scenario -> Planner Rng Scenario;
  (** [get_random_node()]: one draw of the instance's sampler. *)
  get_random_node : Rng -> AnyNode.t * Rng;
  (** The collision oracle, on a candidate node. *)
  collision : Scenario -> AnyNode.t -> bool;
  (** [self.goal.is_fulfilled] *)
  is_fulfilled : VehicleStateDyn.t -> bool;
  (** [Tree.find_best_path(leaf)] *)
  find_best_path : Tree.t -> AnyNode.t -> Path.t;
  (** [remove_driven_nodes(current_pose)] *)
  remove_driven_nodes : SE2Transform.t -> Planner Rng Scenario -> Planner Rng Scenario;
  (** [check_path_valid()] *)
  check_path_valid : Planner Rng Scenario -> bool
}.

(** ** The methods of [AnytimeRRTDubins] *)

Section AnytimeRRTDubins.

Context {Rng Scenario Mode : Type} {Ext : External Rng Scenario Mode}.

Abbreviation Self := (Planner Rng Scenario).

(** Modelled from the spec: [AnyNode(pose=..., id=...)], absent from the
    sources, builds a node with no parent, an empty path and the default
    cost. *)
Definition AnyNode_init (pose : SE2Transform.t) (id : string) : AnyNode.t :=
  AnyNode.mk id pose [] AnyNode_default_cost None.

(** Modelled from the spec: [check_collision(node)], absent from the sources,
    asks the collision oracle; a failed steer (no node) is a discarded
    candidate. *)
Definition check_collision (self : Self) (node : option AnyNode.t) : bool :=
  match node with
  | None => true
  | Some n => collision (scenario self) n
  end.

Definition get_nearest_node_from_tree (tr : Tree.t) (rnd_node : AnyNode.t)
  : option AnyNode.t :=
  Tree.nearest tr (AnyNode.pose rnd_node).

(** [__init__]: the base class's constructor, then [self.curvature = curvature]. *)
Definition init (args : InitArgs Scenario) (curvature : Q) : Self :=
  set_curvature curvature (AnytimeRRT_init args).

Definition reached_goal (node : AnyNode.t) : bool :=
  let x0_p1 :=
    VehicleStateDyn.mk (fst (SE2Transform.p (AnyNode.pose node)))
                       (snd (SE2Transform.p (AnyNode.pose node)))
                       (SE2Transform.theta (AnyNode.pose node)) 0%Q 0%Q in
  if is_fulfilled x0_p1 then true else false.

(** The loop over [final_goal_nodes] returns the first node of minimal cost;
    falling off its end returns [None]. *)
Definition search_best_goal_node (self : Self) : option AnyNode.t :=
  let final_goal_nodes := List.filter reached_goal (Tree.values (tree self)) in
  match final_goal_nodes with
  | [] => None
  | n :: rest =>
      let min_cost := py_min_from (AnyNode.cost n) (map AnyNode.cost rest) in
      List.find (fun node => Qeq_bool (AnyNode.cost node) min_cost) final_goal_nodes
  end.

Definition dubins_between (self : Self) (a b : SE2Transform.t)
  : list SE2Transform.t * Mode * list Q :=
  dubins_path_planning
    (fst (SE2Transform.p a)) (snd (SE2Transform.p a)) (SE2Transform.theta a)
    (fst (SE2Transform.p b)) (snd (SE2Transform.p b)) (SE2Transform.theta b)
    (curvature self) (path_resolution self).

(** [sum([abs(c) for c in course_lengths])] *)
Definition segment_length (course_lengths : list Q) : Q :=
  py_sum (map Qabs course_lengths).

(** The path the new node stores: the whole Dubins path, or the Dubins path
    to its sample [path_idx] when that sample is not the last one. *)
Definition truncate (self : Self) (from_pose : SE2Transform.t)
    (first : list SE2Transform.t * Mode * list Q) (path_idx : Z)
  : Outcome (list SE2Transform.t * Mode * list Q) :=
  let path := fst (fst first) in
  if (path_idx <? Z.of_nat (length path) - 1)%Z then
    target <- py_getitem path path_idx ;;
    Ok (dubins_between self from_pose target)
  else Ok first.

Definition constrained_steer (self : Self) (from_node : option AnyNode.t)
    (to_node : AnyNode.t) (extend_length : Q) : Outcome (option AnyNode.t) :=
  match from_node with
  | None => Raise AttributeError
  | Some from =>
      let first := dubins_between self (AnyNode.pose from) (AnyNode.pose to_node) in
      if (length (fst (fst first)) <=? 1)%nat then Ok None
      else
        q <- py_div 3%Q (path_resolution self) ;;
        let path_idx := py_int q in
        final <- truncate self (AnyNode.pose from) first path_idx ;;
        let path := fst (fst final) in
        let course_lengths := snd final in
        last <- py_getitem path (-1)%Z ;;
        let new_node :=
          AnyNode_init (SE2Transform.mk (fst (SE2Transform.p last), snd (SE2Transform.p last))
                                        (SE2Transform.theta last)) "new" in
        let new_node := AnyNode.set_path path new_node in
        let new_node :=
          AnyNode.set_cost (AnyNode.cost new_node + segment_length course_lengths)%Q new_node in
        let new_node := AnyNode.set_parent (Some (AnyNode.id from)) new_node in
        Ok (Some new_node)
  end.

(** The steer of one iteration: from the node nearest to the sampled one,
    towards the sampled one. *)
Definition candidate (self : Self) : Outcome (option AnyNode.t) :=
  let rnd_node := fst (get_random_node (rng self)) in
  constrained_steer self (get_nearest_node_from_tree (tree self) rnd_node) rnd_node
                    (expand_dis self).

(** The statements shared by an iteration of [planning] and of [expand_tree]:
    sample, find the nearest node, steer, and insert the candidate unless it
    collides.  Returns [new_node] and whether it was inserted. *)
Definition grow : M (Rng:=Rng) (Scenario:=Scenario) (option AnyNode.t * bool) :=
  self <~ get ;;
  let rnd_node := fst (get_random_node (rng self)) in
  modify (set_rng (snd (get_random_node (rng self)))) ;;;
  let nearest_node := get_nearest_node_from_tree (tree self) rnd_node in
  new_node <~ lift (candidate self) ;;
  if negb (check_collision self new_node) then
    modify (fun s => set_number_nodes (number_nodes s + 1)%Z s) ;;;
    match new_node with
    | None => raise AttributeError
    | Some n =>
        self <~ get ;;
        let n := AnyNode.set_id (pretty (number_nodes self)) n in
        let n := Tree.set_child nearest_node n in
        tr <~ lift (Tree.insert n (tree self)) ;;
        modify (set_tree tr) ;;;
        ret (Some n, true)
    end
  else ret (new_node, false).

(** [self.path.path] *)
Definition stored_path : M (Rng:=Rng) (Scenario:=Scenario) (list SE2Transform.t) :=
  self <~ get ;;
  match path self with
  | Some p => ret (Path.path p)
  | None => raise AttributeError
  end.

(** [self.path = self.tree.find_best_path(last_node); return self.path.path] *)
Definition commit (last_node : AnyNode.t)
  : M (Rng:=Rng) (Scenario:=Scenario) (list SE2Transform.t) :=
  modify (fun s => set_path (Some (find_best_path (tree s) last_node)) s) ;;;
  stored_path.

(** What one iteration of the loop of [planning] did. *)
Record Iteration : Type := mkIteration {
  new_node : option AnyNode.t;
  added : bool;
  probed : bool;
  returned : option (list SE2Transform.t)
}.

(** The second statement of the loop body: the goal probe, made when
    [search_until_max_iter] is off and [new_node] is a node. *)
Definition probe (g : option AnyNode.t * bool)
  : M (Rng:=Rng) (Scenario:=Scenario) Iteration :=
  self <~ get ;;
  if negb (search_until_max_iter self) && truthy (fst g) then
    match search_best_goal_node self with
    | Some last_node =>
        p <~ commit last_node ;;
        ret (mkIteration (fst g) (snd g) true (Some p))
    | None => ret (mkIteration (fst g) (snd g) true None)
    end
  else ret (mkIteration (fst g) (snd g) false None).

Definition planning_iteration : M (Rng:=Rng) (Scenario:=Scenario) Iteration :=
  g <~ grow ;;
  probe g.

Fixpoint planning_loop (n : nat)
  : M (Rng:=Rng) (Scenario:=Scenario) (option (list SE2Transform.t)) :=
  match n with
  | O => ret None
  | S k =>
      it <~ planning_iteration ;;
      match returned it with
      | Some p => ret (Some p)
      | None => planning_loop k
      end
  end.

(** The goal probe after the loop. *)
Definition final_probe : M (Rng:=Rng) (Scenario:=Scenario) (option (list SE2Transform.t)) :=
  self <~ get ;;
  match search_best_goal_node self with
  | Some last_node => p <~ commit last_node ;; ret (Some p)
  | None => ret None
  end.

Definition planning : M (Rng:=Rng) (Scenario:=Scenario) (option (list SE2Transform.t)) :=
  self <~ get ;;
  r <~ planning_loop (Z.to_nat (max_iter self)) ;;
  match r with
  | Some p => ret (Some p)
  | None => final_probe
  end.

Definition replanning (current_pose : SE2Transform.t)
  : M (Rng:=Rng) (Scenario:=Scenario) (option (list SE2Transform.t)) :=
  modify (remove_driven_nodes current_pose) ;;;
  self <~ get ;;
  if check_path_valid self then
    p <~ stored_path ;; ret (Some p)
  else
    modify (fun s => set_tree (Tree.remove (tree s)) s) ;;;
    self <~ get ;;
    match search_best_goal_node self with
    | Some last_node => p <~ commit last_node ;; ret (Some p)
    | None => modify (set_path None) ;;; ret None
    end.

Fixpoint expand_loop (n : nat) : M (Rng:=Rng) (Scenario:=Scenario) unit :=
  match n with
  | O => ret tt
  | S k => grow ;;; expand_loop k
  end.

Definition expand_tree : M (Rng:=Rng) (Scenario:=Scenario) unit :=
  self <~ get ;;
  expand_loop (Z.to_nat (expand_iter self)).

(** *** Well-formed planners *)

(** The node an iteration inserts: the candidate under its new id, linked to
    the nearest node. *)
Definition labelled (self : Self) (n : AnyNode.t) : AnyNode.t :=
  Tree.set_child
    (get_nearest_node_from_tree (tree self) (fst (get_random_node (rng self))))
    (AnyNode.set_id (pretty (number_nodes self + 1)%Z) n).

(** The ids still to be given out are not keys of the tree. *)
Definition fresh_ids (self : Self) : Prop :=
  forall k : Z, (number_nodes self < k)%Z -> ~ In (pretty k) (Tree.keys (tree self)).

(** The generator returns at least one sample. *)
Definition generator_samples : Prop :=
  forall a b c d e f g h : Q, fst (fst (dubins_path_planning a b c d e f g h)) <> [].

(** A planner whose tree has a node, whose counter is ahead of the ids in
    use, and whose resolution is positive. *)
Definition well_formed (self : Self) : Prop :=
  tree self <> [] /\ fresh_ids self /\ (0 < path_resolution self)%Q.

End AnytimeRRTDubins.

(** ** A concrete world for evaluation

    An instance of the interface on which the methods can be run: a vehicle
    that drives along the x-axis.  The generator samples the straight segment
    from the start towards the goal's abscissa every [step_size] (a lone start
    sample when the goal is not ahead), the sampler proposes the poses
    [(10, 0)], [(20, 0)], ... in turn, the scenario is a wall at an abscissa,
    and the goal region is [5 <= x]. *)

Module Demo.

Definition sample_at (s_x s_y s_yaw step_size : Q) (k : nat) : SE2Transform.t :=
  SE2Transform.mk ((s_x + inject_Z (Z.of_nat k) * step_size)%Q, s_y) s_yaw.

Definition line_generator (s_x s_y s_yaw g_x g_y g_yaw curvature step_size : Q)
  : list SE2Transform.t * string * list Q :=
  let steps :=
    if Qlt_bool 0%Q step_size then Z.to_nat (py_int ((g_x - s_x) / step_size)%Q) else O in
  (map (sample_at s_x s_y s_yaw step_size) (seq 0 (S steps)),
   "S",
   [0%Q; (inject_Z (Z.of_nat steps) * step_size)%Q; 0%Q]).

Definition next_target (g : nat) : AnyNode.t * nat :=
  (AnyNode.mk "rnd" (SE2Transform.mk (inject_Z (10 * Z.of_nat (S g)), 0%Q) 0%Q) [] 0%Q None,
   S g).

Definition behind_wall (wall : Q) (q : SE2Transform.t) : bool :=
  Qle_bool wall (fst (SE2Transform.p q)).

Definition root (x0 : SE2Transform.t) : AnyNode.t := AnyNode.mk "0" x0 [] 0%Q None.

Definition build (args : InitArgs Q) : Planner nat Q :=
  mkPlanner (arg_max_iter args) (arg_expand_dis args) (arg_path_resolution args)
            (arg_search_until_max_iter args) (arg_expand_iter args) 0%Q
            [("0", root (arg_initial_pose args))] 0%Z None
            (Z.to_nat (arg_seed args)) (arg_scenario args).

Fixpoint lookup_node (tr : Tree.t) (k : string) : option AnyNode.t :=
  match tr with
  | [] => None
  | (k', n) :: rest => if String.eqb k' k then Some n else lookup_node rest k
  end.

(** The segments from the root down to [leaf], following parent ids for at
    most [fuel] steps; every segment after the first drops its first pose,
    which repeats the last pose of the segment before. *)
Fixpoint walk_back (fuel : nat) (tr : Tree.t) (leaf : AnyNode.t) : list SE2Transform.t :=
  match fuel with
  | O => AnyNode.path leaf
  | S k =>
      match AnyNode.parent leaf with
      | None => AnyNode.path leaf
      | Some pid =>
          match lookup_node tr pid with
          | None => AnyNode.path leaf
          | Some up =>
              match walk_back k tr up with
              | [] => AnyNode.path leaf
              | prefix => prefix ++ tail (AnyNode.path leaf)
              end
          end
      end
  end.

Definition best_path (tr : Tree.t) (leaf : AnyNode.t) : Path.t :=
  Path.mk (walk_back (length tr) tr leaf) (AnyNode.cost leaf).

Definition still_valid (s : Planner nat Q) : bool :=
  match path s with
  | Some p => negb (existsb (behind_wall (scenario s)) (Path.path p))
  | None => false
  end.

Definition world : External nat Q string := {|
  dubins_path_planning := line_generator;
  AnyNode_default_cost := 0%Q;
  AnytimeRRT_init := build;
  get_random_node := next_target;
  collision := fun wall n => behind_wall wall (AnyNode.pose n);
  is_fulfilled := fun v => Qle_bool 5%Q (VehicleStateDyn.x v);
  find_best_path := best_path;
  remove_driven_nodes := fun _ s => s;
  check_path_valid := still_valid
|}.

#[local] Existing Instance world.

Definition origin : SE2Transform.t := SE2Transform.mk (0%Q, 0%Q) 0%Q.

(** No wall in reach, unit resolution, two iterations, probing only at the end. *)
Definition open_road : Planner nat Q :=
  init (mkInitArgs 100%Q origin 2%Z 0%Z 30%Q 1%Q true 0%Z 2%Z) 1%Q.

(** A wall at [x = 2], probing after every iteration. *)
Definition walled : Planner nat Q :=
  init (mkInitArgs 2%Q origin 2%Z 0%Z 30%Q 1%Q false 0%Z 2%Z) 1%Q.

(** No wall in reach, probing after every iteration. *)
Definition eager : Planner nat Q :=
  init (mkInitArgs 100%Q origin 2%Z 0%Z 30%Q 1%Q false 0%Z 2%Z) 1%Q.

Definition pose_at (x : Z) : SE2Transform.t := SE2Transform.mk (inject_Z x, 0%Q) 0%Q.

(** The node the first iteration on [open_road] inserts, and the one the
    second iteration steers from it. *)
Definition node1 : AnyNode.t :=
  AnyNode.mk "1" (pose_at 3) (map pose_at [0; 1; 2; 3]%Z) 3%Q (Some "0").
Definition node2_new : AnyNode.t :=
  AnyNode.mk "new" (pose_at 6) (map pose_at [3; 4; 5; 6]%Z) 3%Q (Some "1").
Definition target2 : AnyNode.t := fst (next_target 1).
(** That second node as the tree holds it. *)
Definition node2 : AnyNode.t :=
  AnyNode.mk "2" (pose_at 6) (map pose_at [3; 4; 5; 6]%Z) 3%Q (Some "1").

(** [eager] after a successful [planning], the wall then moved onto the
    stored path. *)
Definition blocked : Planner nat Q :=
  set_scenario 4%Q (snd (planning eager)).

End Demo.

(** ** What a run of the planner keeps *)

Section PlannerRuns.

Context {Rng Scenario Mode : Type} {Ext : External Rng Scenario Mode}.

Abbreviation Self := (Planner Rng Scenario).

(** One draw of the sampler, on its state. *)
Definition draw (g : Rng) : Rng := snd (get_random_node g).

(** The settings and the scenario of two planners agree. *)
Definition same_settings (s s' : Self) : Prop :=
  max_iter s' = max_iter s /\ expand_dis s' = expand_dis s /\
  path_resolution s' = path_resolution s /\
  search_until_max_iter s' = search_until_max_iter s /\
  expand_iter s' = expand_iter s /\ curvature s' = curvature s /\
  scenario s' = scenario s.

(** The ids [str(n + 1)], ..., [str(n + k)]. *)
Definition ids_after (n : Z) (k : nat) : list string :=
  map (fun j => pretty (n + Z.of_nat j)%Z) (seq 1 k).

(** A tree whose keys are distinct, whose nodes are stored under their own
    id, and whose parent references are keys of the tree. *)
Definition tree_sound (tr : Tree.t) : Prop :=
  NoDup (Tree.keys tr) /\
  Forall (fun kv => AnyNode.id (snd kv) = fst kv) tr /\
  Forall (fun kv => forall pid, AnyNode.parent (snd kv) = Some pid -> In pid (Tree.keys tr)) tr.

(** From [self] to [self']: the tree has grown by [added], under the next ids
    in turn, each node stored under its own id after it passed the collision
    check as the candidate ['new']; the counter has advanced by as many; the
    sampler was drawn [k] times; the settings are as they were. *)
Definition extends_by (self self' : Self) (added : list (string * AnyNode.t)) (k : nat)
  : Prop :=
  tree self' = tree self ++ added /\
  map fst added = ids_after (number_nodes self) (length added) /\
  number_nodes self' = (number_nodes self + Z.of_nat (length added))%Z /\
  length added <= k /\
  rng self' = Nat.iter k draw (rng self) /\
  same_settings self self' /\
  Forall (fun kv => AnyNode.id (snd kv) = fst kv /\
                    collision (scenario self) (AnyNode.set_id "new" (snd kv)) = false)
         added.

End PlannerRuns.

(** More planners of the concrete world. *)

Module DemoRuns.
Import Demo.

(** The open road at a resolution of 4. *)
Definition coarse : Planner nat Q :=
  init (Ext:=world) (mkInitArgs 100%Q origin 2%Z 0%Z 30%Q 4%Q true 0%Z 2%Z) 1%Q.

Definition root_node : AnyNode.t := root origin.

(** What a steer from the root gives at that resolution: a node on the root's
    own pose. *)
Definition stuck : AnyNode.t :=
  AnyNode.mk "new" origin [origin] 0%Q (Some "0").

Definition target1 : AnyNode.t := fst (next_target 0).

End DemoRuns.

(** Planners on which a call raises. *)

Module DemoRaises.
Import Demo.





End DemoRaises.

(** * Properties *)

(** ** [RocketCommands.from_array] *)

Module RocketFacts.
Import Rocket.

Lemma idx_has_no_acc_left : idx !! "acc_left " = None.
Proof. vm_compute. reflexivity. Qed.

Lemma from_array_assert_shape (z : ndarray) :
  from_array_assert z = Ok tt ->
  nd_size z = 3 /\ exists rest, shape z = 3 :: rest.
Proof.
  unfold from_array_assert, nd_shape0, py_getitem.
  change get_n_commands with 3.
  destruct (3 =? nd_size z) eqn:Hsz; [|discriminate].
  apply Nat.eqb_eq in Hsz.
  destruct (shape z) as [|d rest] eqn:Hsh; simpl; [discriminate|].
  destruct (nd_size z =? d) eqn:Hd; [|discriminate].
  apply Nat.eqb_eq in Hd. intros _. split; [lia|].
  exists rest. f_equal. lia.
Qed.

(** C10: [RocketCommands.from_array] raises on every array, whatever its
    shape: the assertion fails, or the lookup of the key ["acc_left "] in
    [idx] raises [KeyError]; the keyword arguments [acc_left] and [acc_right]
    are not fields of the class either, so the constructor call alone raises
    [TypeError]; and the round trip through [as_ndarray] always raises
    [KeyError]. *)
Theorem from_array_always_raises :
  (forall z : ndarray, exists e, from_array z = Raise e) /\
  (forall c : RocketCommands, from_array (as_ndarray c) = Raise KeyError) /\
  dict_getitem idx "acc_left " = Raise KeyError /\
  (forall a b : Q,
      RocketCommands_init [("acc_left", a); ("acc_right", b)] = Raise TypeError).
Proof.
  split; [|split; [|split]].
  - intros z. unfold from_array.
    destruct (from_array_assert z) as [[]|e] eqn:Ha; cbn.
    + exists KeyError. unfold dict_getitem. rewrite idx_has_no_acc_left. reflexivity.
    + exists e. reflexivity.
  - intros c. unfold from_array.
    assert (Ha : from_array_assert (as_ndarray c) = Ok tt) by (vm_compute; reflexivity).
    rewrite Ha. cbn. unfold dict_getitem. rewrite idx_has_no_acc_left. reflexivity.
  - unfold dict_getitem. rewrite idx_has_no_acc_left. reflexivity.
  - intros a b. reflexivity.
Qed.

End RocketFacts.

(** ** Lists and floats *)

Lemma Qlt_bool_true (a b : Q) : Qlt_bool a b = true <-> (a < b)%Q.
Proof.
  unfold Qlt_bool. rewrite negb_true_iff. split.
  - intros H. apply Qnot_le_lt. intros Hle.
    apply Qle_bool_iff in Hle. congruence.
  - intros H. destruct (Qle_bool b a) eqn:Hle; [|reflexivity].
    apply Qle_bool_iff in Hle. exfalso. exact (Qlt_not_le _ _ H Hle).
Qed.

Lemma Qlt_bool_false (a b : Q) : Qlt_bool a b = false <-> (b <= a)%Q.
Proof.
  unfold Qlt_bool. rewrite negb_false_iff. apply Qle_bool_iff.
Qed.

Lemma py_min_from_le (xs : list Q) :
  forall x, (py_min_from x xs <= x)%Q /\ forall y, In y xs -> (py_min_from x xs <= y)%Q.
Proof.
  unfold py_min_from.
  induction xs as [|y ys IH]; intros x; cbn.
  - split; [apply Qle_refl|]. intros ? [].
  - destruct (IH (if Qlt_bool y x then y else x)) as [Hhd Htl].
    assert (Hx : ((if Qlt_bool y x then y else x) <= x)%Q).
    { destruct (Qlt_bool y x) eqn:E; [|apply Qle_refl].
      apply Qlt_le_weak, Qlt_bool_true, E. }
    assert (Hy : ((if Qlt_bool y x then y else x) <= y)%Q).
    { destruct (Qlt_bool y x) eqn:E; [apply Qle_refl|].
      apply Qlt_bool_false, E. }
    split; [eapply Qle_trans; eassumption|].
    intros z [<-|Hz]; [eapply Qle_trans; eassumption|auto].
Qed.

Lemma py_min_from_In (xs : list Q) :
  forall x, In (py_min_from x xs) (x :: xs).
Proof.
  unfold py_min_from.
  induction xs as [|y ys IH]; intros x; cbn.
  - left. reflexivity.
  - destruct (IH (if Qlt_bool y x then y else x)) as [H|H].
    + destruct (Qlt_bool y x); [right; left | left]; exact H.
    + right. right. exact H.
Qed.

(** [List.find] returns the first element that passes the test. *)
Lemma find_first {A : Type} (f : A -> bool) (l : list A) :
  match List.find f l with
  | Some a => exists pre post,
      l = pre ++ a :: post /\ f a = true /\ forall b, In b pre -> f b = false
  | None => forall b, In b l -> f b = false
  end.
Proof.
  induction l as [|x l IH]; cbn.
  - intros ? [].
  - destruct (f x) eqn:Hx.
    + exists [], l. repeat split; [exact Hx|]. intros ? [].
    + destruct (List.find f l) as [a|].
      * destruct IH as (pre & post & -> & Ha & Hpre).
        exists (x :: pre), post. repeat split; [exact Ha|].
        intros b [<-|Hb]; [exact Hx|auto].
      * intros b [<-|Hb]; [exact Hx|auto].
Qed.

(** A split of a filtered list comes from a split of the list. *)
Lemma filter_split {A : Type} (f : A -> bool) (l : list A) :
  forall pre a post,
    List.filter f l = pre ++ a :: post ->
    exists before after,
      l = before ++ a :: after /\
      List.filter f before = pre /\ List.filter f after = post.
Proof.
  induction l as [|x l IH]; intros pre a post; cbn.
  - intros H. destruct pre; discriminate.
  - destruct (f x) eqn:Hx.
    + destruct pre as [|p pre]; cbn; intros H; injection H as Hhd H; subst.
      * exists [], (l). cbn. auto.
      * destruct (IH _ _ _ H) as (before & after & -> & Hb & Ha).
        exists (p :: before), after. cbn. rewrite Hx, Hb. auto.
    + intros H. destruct (IH _ _ _ H) as (before & after & -> & Hb & Ha).
      exists (x :: before), after. cbn. rewrite Hx. auto.
Qed.

Lemma py_getitem_in_range {A : Type} (l : list A) (i : Z) :
  (0 <= i < Z.of_nat (length l))%Z -> exists a, py_getitem l i = Ok a.
Proof.
  intros Hi. unfold py_getitem.
  destruct (i <? 0)%Z eqn:Hneg; [apply Z.ltb_lt in Hneg; lia|].
  rewrite Hneg.
  destruct (l !! Z.to_nat i) as [a|] eqn:Hl; [eauto|].
  apply lookup_ge_None in Hl. lia.
Qed.

Lemma py_getitem_last {A : Type} (l : list A) :
  l <> [] -> exists a, py_getitem l (-1)%Z = Ok a.
Proof.
  intros Hne. unfold py_getitem. cbn [Z.ltb Z.compare].
  assert (Hlen : length l <> 0) by (destruct l; [congruence|discriminate]).
  destruct (Z.of_nat (length l) + -1 <? 0)%Z eqn:Hneg; [apply Z.ltb_lt in Hneg; lia|].
  destruct (l !! Z.to_nat (Z.of_nat (length l) + -1)) as [a|] eqn:Hl; [eauto|].
  apply lookup_ge_None in Hl. lia.
Qed.

Lemma py_div_pos (a b : Q) :
  (0 <= a)%Q -> (0 < b)%Q ->
  py_div a b = Ok (a / b)%Q /\ (0 <= py_int (a / b))%Z.
Proof.
  intros Ha Hb. split.
  - unfold py_div. destruct (Qeq_bool b 0) eqn:E; [|reflexivity].
    apply Qeq_bool_iff in E. rewrite E in Hb. exfalso. exact (Qlt_irrefl _ Hb).
  - assert (Hq : (0 <= a / b)%Q).
    { unfold Qdiv. apply Qmult_le_0_compat; [exact Ha|].
      apply Qlt_le_weak, Qinv_lt_0_compat, Hb. }
    unfold py_int. apply Z.quot_pos; [|lia].
    unfold Qle in Hq. change (Qnum 0) with 0%Z in Hq.
    change (Z.pos (Qden 0)) with 1%Z in Hq. lia.
Qed.

Lemma existsb_eqb_false (k : string) (l : list string) :
  ~ In k l -> existsb (String.eqb k) l = false.
Proof.
  intros Hk. destruct (existsb (String.eqb k) l) eqn:E; [|reflexivity].
  apply existsb_exists in E. destruct E as (k' & Hin & Heq).
  apply String.eqb_eq in Heq. subst. contradiction.
Qed.

(** ** The planner *)

Section PlannerFacts.

Context {Rng Scenario Mode : Type} {Ext : External Rng Scenario Mode}.

Abbreviation Self := (Planner Rng Scenario).

(** *** The goal test *)

(** C9: [reached_goal(node)] holds exactly when the goal predicate accepts the
    vehicle state whose position and heading are the node's pose and whose
    [vx] and [delta] are zero. *)
Theorem reached_goal_iff (node : AnyNode.t) :
  reached_goal node = true <->
  is_fulfilled
    (VehicleStateDyn.mk (fst (SE2Transform.p (AnyNode.pose node)))
                        (snd (SE2Transform.p (AnyNode.pose node)))
                        (SE2Transform.theta (AnyNode.pose node)) 0%Q 0%Q) = true.
Proof.
  unfold reached_goal.
  destruct (is_fulfilled _); split; intros H; try reflexivity; discriminate.
Qed.

(** *** Steering *)

(** The Dubins result a successful steer is built from. *)
Lemma constrained_steer_inv (self : Self) (from to_node node : AnyNode.t) (e : Q) :
  constrained_steer self (Some from) to_node e = Ok (Some node) ->
  exists q final last,
    py_div 3%Q (path_resolution self) = Ok q /\
    truncate self (AnyNode.pose from)
             (dubins_between self (AnyNode.pose from) (AnyNode.pose to_node))
             (py_int q) = Ok final /\
    py_getitem (fst (fst final)) (-1)%Z = Ok last /\
    node = AnyNode.mk "new"
             (SE2Transform.mk (SE2Transform.p last) (SE2Transform.theta last))
             (fst (fst final))
             (AnyNode_default_cost + segment_length (snd final))%Q
             (Some (AnyNode.id from)).
Proof.
  unfold constrained_steer.
  destruct (length _ <=? 1); [discriminate|].
  destruct (py_div 3%Q (path_resolution self)) as [q|] eqn:Hq; cbn; [|discriminate].
  destruct (truncate _ _ _ _) as [final|] eqn:Hf; cbn; [|discriminate].
  destruct (py_getitem _ _) as [last|] eqn:Hl; cbn; [|discriminate].
  intros H. injection H as <-. exists q, final, last.
  repeat split; try assumption.
  unfold AnyNode_init, AnyNode.set_parent, AnyNode.set_cost, AnyNode.set_path; cbn.
  destruct (SE2Transform.p last); reflexivity.
Qed.


(** The cost [constrained_steer] gives a new node is the default cost of a
    fresh node plus the length of the segment it stores, whatever the cost of
    [from_node]. *)
Lemma constrained_steer_cost (self : Self) (from to_node node : AnyNode.t) (e : Q) :
  constrained_steer self (Some from) to_node e = Ok (Some node) ->
  exists segment : list SE2Transform.t * Mode * list Q,
    AnyNode.path node = fst (fst segment) /\
    AnyNode.parent node = Some (AnyNode.id from) /\
    AnyNode.cost node = (AnyNode_default_cost + segment_length (snd segment))%Q.
Proof.
  intros Hs.
  destruct (constrained_steer_inv _ _ _ _ _ Hs) as (q & final & last & _ & _ & _ & ->).
  exists final. cbn. repeat split.
Qed.

(** *** The goal probe *)

Lemma search_best_goal_node_is_goal (self : Self) (best : AnyNode.t) :
  search_best_goal_node self = Some best ->
  reached_goal best = true /\ In best (Tree.values (tree self)).
Proof.
  unfold search_best_goal_node.
  destruct (List.filter reached_goal _) as [|n0 rest] eqn:Hfin; [discriminate|].
  intros H. apply find_some in H. destruct H as [Hin _].
  rewrite <- Hfin in Hin. apply filter_In in Hin. tauto.
Qed.

(** C6: [search_best_goal_node] returns [None] when no node of the tree
    satisfies the goal; otherwise it returns a node of the tree that
    satisfies the goal, whose cost no satisfying node undercuts, and that
    comes first among them in the tree's iteration order: every satisfying
    node before it costs strictly more. *)
Theorem search_best_goal_node_spec (self : Self) :
  match search_best_goal_node self with
  | None => forall n, In n (Tree.values (tree self)) -> reached_goal n = false
  | Some best =>
      exists before after,
        Tree.values (tree self) = before ++ best :: after /\
        reached_goal best = true /\
        (forall n, In n before -> reached_goal n = true ->
                   (AnyNode.cost best < AnyNode.cost n)%Q) /\
        (forall n, In n after -> reached_goal n = true ->
                   (AnyNode.cost best <= AnyNode.cost n)%Q)
  end.
Proof.
  unfold search_best_goal_node.
  set (vs := Tree.values (tree self)).
  destruct (List.filter reached_goal vs) as [|n0 rest] eqn:Hfin.
  - intros n Hn. destruct (reached_goal n) eqn:Hg; [|reflexivity].
    assert (Hin : In n (List.filter reached_goal vs)) by (apply filter_In; auto).
    rewrite Hfin in Hin. destruct Hin.
  - set (m := py_min_from (AnyNode.cost n0) (map AnyNode.cost rest)).
    assert (Hle : forall n, In n (n0 :: rest) -> (m <= AnyNode.cost n)%Q).
    { intros n [<-|Hn].
      - apply (proj1 (py_min_from_le _ _)).
      - apply (proj2 (py_min_from_le _ _)). apply in_map. exact Hn. }
    assert (Hex : exists n, In n (n0 :: rest) /\ AnyNode.cost n = m).
    { destruct (py_min_from_In (map AnyNode.cost rest) (AnyNode.cost n0)) as [H|H].
      - exists n0. split; [left; reflexivity|exact H].
      - apply in_map_iff in H. destruct H as (n & Hc & Hn).
        exists n. split; [right; exact Hn|exact Hc]. }
    pose proof (find_first (fun node => Qeq_bool (AnyNode.cost node) m) (n0 :: rest)) as Hfind.
    destruct (List.find _ (n0 :: rest)) as [best|].
    + destruct Hfind as (pre & post & Hsplit & Hbest & Hpre).
      apply Qeq_bool_iff in Hbest.
      rewrite <- Hfin in Hsplit.
      destruct (filter_split _ _ _ _ _ Hsplit) as (before & after & Hvs & Hb & Ha).
      exists before, after. split; [exact Hvs|].
      assert (Hgoal : forall n, In n (List.filter reached_goal vs) -> reached_goal n = true).
      { intros n Hn. apply filter_In in Hn. tauto. }
      split.
      { apply Hgoal. rewrite Hsplit. apply in_or_app. right. left. reflexivity. }
      split.
      * intros n Hn Hg.
        assert (Hnpre : In n pre) by (rewrite <- Hb; apply filter_In; auto).
        assert (Hnfin : In n (n0 :: rest)).
        { rewrite <- Hfin, Hsplit. apply in_or_app. left. exact Hnpre. }
        specialize (Hpre n Hnpre). cbn in Hpre.
        rewrite Hbest.
        destruct (Qlt_le_dec m (AnyNode.cost n)) as [Hlt|Hge]; [exact Hlt|].
        exfalso. apply Qeq_bool_neq in Hpre. apply Hpre.
        apply Qle_antisym; [exact Hge|apply Hle, Hnfin].
      * intros n Hn Hg.
        assert (Hnpost : In n post) by (rewrite <- Ha; apply filter_In; auto).
        rewrite Hbest. apply Hle.
        rewrite <- Hfin, Hsplit. apply in_or_app. right. right. exact Hnpost.
    + exfalso. destruct Hex as (n & Hn & Hc).
      specialize (Hfind n Hn). cbn in Hfind.
      apply Qeq_bool_neq in Hfind. apply Hfind. rewrite Hc. reflexivity.
Qed.

(** *** One iteration *)

Lemma grow_unfold (self : Self) :
  grow self =
  let s0 := set_rng (snd (get_random_node (rng self))) self in
  match candidate self with
  | Raise e => (Raise e, s0)
  | Ok None => (Ok (None, false), s0)
  | Ok (Some n) =>
      if collision (scenario self) n then (Ok (Some n, false), s0)
      else
        let s1 := set_number_nodes (number_nodes self + 1)%Z s0 in
        match Tree.insert (labelled self n) (tree self) with
        | Ok tr => (Ok (Some (labelled self n), true), set_tree tr s1)
        | Raise e => (Raise e, s1)
        end
  end.
Proof.
  unfold grow, bindM, get, modify, lift, ret, raise. cbn.
  destruct (candidate self) as [[n|]|e]; cbn; try reflexivity.
  destruct (collision (scenario self) n); cbn; [reflexivity|].
  unfold labelled.
  destruct (Tree.insert _ _); reflexivity.
Qed.

(** C1: a node that an iteration of [planning] or [expand_tree] inserts is
    the steered candidate, a child of the nearest node; its cost is the
    default cost of a fresh node plus the length of the segment it stores, and
    the cost of its parent is not part of it.  Whenever the parent's cost is
    not that default, [cost = parent.cost + arc_length(path)] fails for the
    inserted node. *)
Theorem inserted_cost_forgets_parent (self self' : Self) (node : AnyNode.t) :
  grow self = (Ok (Some node, true), self') ->
  exists (from : AnyNode.t) (segment : list SE2Transform.t * Mode * list Q),
    get_nearest_node_from_tree (tree self) (fst (get_random_node (rng self))) = Some from /\
    tree self' = tree self ++ [(AnyNode.id node, node)] /\
    AnyNode.parent node = Some (AnyNode.id from) /\
    AnyNode.path node = fst (fst segment) /\
    AnyNode.cost node = (AnyNode_default_cost + segment_length (snd segment))%Q /\
    (~ (AnyNode.cost from == AnyNode_default_cost)%Q ->
     ~ (AnyNode.cost node == AnyNode.cost from + segment_length (snd segment))%Q).
Proof.
  rewrite grow_unfold. cbn zeta.
  destruct (candidate self) as [[n|]|e] eqn:Hc; [| discriminate | discriminate].
  destruct (collision (scenario self) n); [discriminate|].
  destruct (Tree.insert (labelled self n) (tree self)) as [tr|e] eqn:Hins; [|discriminate].
  intros H. injection H as <- <-.
  unfold candidate in Hc.
  destruct (get_nearest_node_from_tree (tree self) (fst (get_random_node (rng self))))
    as [from|] eqn:Hnear; [|discriminate].
  destruct (constrained_steer_cost _ _ _ _ _ Hc) as (segment & Hpath & Hparent & Hcost).
  exists from, segment.
  split; [reflexivity|]. split.
  { unfold Tree.insert in Hins. destruct (existsb _ _); [discriminate|].
    injection Hins as <-. reflexivity. }
  split.
  { unfold labelled. rewrite Hnear. reflexivity. }
  split; [exact Hpath|]. split; [exact Hcost|].
  intros Hne Heq. apply Hne. symmetry.
  change (AnyNode.cost (labelled self n)) with (AnyNode.cost n) in Heq.
  rewrite Hcost in Heq.
  exact (proj1 (Qplus_inj_r _ _ _) Heq).
Qed.

Lemma search_best_goal_node_tree (s1 s2 : Self) :
  tree s1 = tree s2 -> search_best_goal_node s1 = search_best_goal_node s2.
Proof. unfold search_best_goal_node. intros ->. reflexivity. Qed.

Lemma probe_unfold (g : option AnyNode.t * bool) (s : Self) :
  probe g s =
  if negb (search_until_max_iter s) && truthy (fst g) then
    match search_best_goal_node s with
    | Some last =>
        (Ok (mkIteration (fst g) (snd g) true
                         (Some (Path.path (find_best_path (tree s) last)))),
         set_path (Some (find_best_path (tree s) last)) s)
    | None => (Ok (mkIteration (fst g) (snd g) true None), s)
    end
  else (Ok (mkIteration (fst g) (snd g) false None), s).
Proof.
  unfold probe, bindM, get, ret. cbn.
  destruct (negb _ && _); [|reflexivity].
  destruct (search_best_goal_node s); reflexivity.
Qed.

(** What a probe that is made leaves behind. *)
Lemma probe_made (g : option AnyNode.t * bool) (s s' : Self) (it : Iteration) :
  search_until_max_iter s = false -> truthy (fst g) = true ->
  probe g s = (Ok it, s') ->
  new_node it = fst g /\ added it = snd g /\ probed it = true /\
  tree s' = tree s /\
  returned it =
  option_map (fun last => Path.path (find_best_path (tree s') last))
             (search_best_goal_node s').
Proof.
  intros Hf Ht. rewrite probe_unfold, Hf, Ht. cbn.
  destruct (search_best_goal_node s) as [last|] eqn:Hs;
    intros H; injection H as <- <-; cbn; repeat split.
  - rewrite (search_best_goal_node_tree _ s) by reflexivity.
    rewrite Hs. reflexivity.
  - rewrite Hs. reflexivity.
Qed.

(** C3: as the code has it, with [search_until_max_iter] false an iteration
    that completes performs the goal probe exactly when the steer returned a
    node, whether or not the collision check let it into the tree.  A node
    is added exactly when the steer returned one that does not collide, so an
    iteration that adds a node probes; the tree grows by that node, or is
    left as it was; and the probe returns the path of the best goal node of
    the tree, if there is one. *)
Theorem planning_iteration_probe (self self' : Self) (it : Iteration) :
  search_until_max_iter self = false ->
  planning_iteration self = (Ok it, self') ->
  (probed it = true <-> exists n, candidate self = Ok (Some n)) /\
  (added it = true <->
   exists n, candidate self = Ok (Some n) /\ collision (scenario self) n = false) /\
  (added it = true -> probed it = true) /\
  (if added it
   then exists n, new_node it = Some n /\ tree self' = tree self ++ [(AnyNode.id n, n)]
   else tree self' = tree self) /\
  (probed it = true ->
   returned it =
   option_map (fun last => Path.path (find_best_path (tree self') last))
              (search_best_goal_node self')).
Proof.
  intros Hflag. unfold planning_iteration, bindM.
  rewrite grow_unfold. cbn zeta.
  destruct (candidate self) as [[n|]|e] eqn:Hc; [| |discriminate].
  - (* the steer returned a node *)
    destruct (collision (scenario self) n) eqn:Hcol.
    + intros H.
      apply probe_made in H; [|exact Hflag|reflexivity].
      destruct H as (Hn & Ha & Hp & Ht & Hr).
      cbn in Ha, Ht. rewrite Ha, Hp.
      split; [split; [eauto|reflexivity]|].
      split; [split; [discriminate|]|].
      { intros (n' & Hn' & Hcol'). injection Hn' as <-. congruence. }
      split; [discriminate|]. split; [exact Ht|]. intros _. exact Hr.
    + destruct (Tree.insert (labelled self n) (tree self)) as [tr|e] eqn:Hins;
        [|discriminate].
      intros H.
      apply probe_made in H; [|exact Hflag|reflexivity].
      destruct H as (Hn & Ha & Hp & Ht & Hr).
      cbn in Hn, Ha, Ht. rewrite Ha, Hp.
      split; [split; [eauto|reflexivity]|].
      split; [split; [eauto|reflexivity]|].
      split; [reflexivity|]. split; [|intros _; exact Hr].
      exists (labelled self n). split; [exact Hn|].
      rewrite Ht. unfold Tree.insert in Hins.
      destruct (existsb _ _); [discriminate|]. injection Hins as <-. reflexivity.
  - (* the steer failed *)
    rewrite probe_unfold. cbn. rewrite andb_false_r.
    intros H. injection H as <- <-. cbn.
    split; [split; [discriminate|intros (n & Hn); discriminate]|].
    split; [split; [discriminate|intros (n & Hn & _); discriminate]|].
    split; [discriminate|]. split; [reflexivity|discriminate].
Qed.

(** *** Replanning *)

Lemma replanning_unfold (current_pose : SE2Transform.t) (self : Self) :
  replanning current_pose self =
  let pruned := remove_driven_nodes current_pose self in
  if check_path_valid pruned then
    match path pruned with
    | Some p => (Ok (Some (Path.path p)), pruned)
    | None => (Raise AttributeError, pruned)
    end
  else
    let cleared := set_tree (Tree.remove (tree pruned)) pruned in
    match search_best_goal_node cleared with
    | Some best =>
        (Ok (Some (Path.path (find_best_path (tree cleared) best))),
         set_path (Some (find_best_path (tree cleared) best)) cleared)
    | None => (Ok None, set_path None cleared)
    end.
Proof.
  unfold replanning, bindM, modify, get, stored_path, ret, raise. cbn.
  destruct (check_path_valid (remove_driven_nodes current_pose self)).
  - destruct (path (remove_driven_nodes current_pose self)); reflexivity.
  - reflexivity.
Qed.

(** C4: [replanning(current_pose)] prunes first; if the stored path is still
    valid it returns that path and changes nothing else; otherwise it clears
    the tree, probes the goal once on what is left, commits and returns the
    path of the best goal node if the probe finds one, and else sets the
    stored path to [None] and returns [None]. *)
Theorem replanning_cases (current_pose : SE2Transform.t) (self : Self) :
  let pruned := remove_driven_nodes current_pose self in
  let cleared := set_tree (Tree.remove (tree pruned)) pruned in
  if check_path_valid pruned then
    match path pruned with
    | Some p => replanning current_pose self = (Ok (Some (Path.path p)), pruned)
    | None => replanning current_pose self = (Raise AttributeError, pruned)
    end
  else
    match search_best_goal_node cleared with
    | Some best =>
        reached_goal best = true /\
        replanning current_pose self =
        (Ok (Some (Path.path (find_best_path (tree cleared) best))),
         set_path (Some (find_best_path (tree cleared) best)) cleared)
    | None =>
        replanning current_pose self = (Ok None, set_path None cleared) /\
        path (snd (replanning current_pose self)) = None
    end.
Proof.
  intros pruned cleared. rewrite replanning_unfold. cbv zeta. fold pruned.
  destruct (check_path_valid pruned).
  - destruct (path pruned); reflexivity.
  - fold cleared.
    destruct (search_best_goal_node cleared) as [best|] eqn:Hs.
    + split; [exact (proj1 (search_best_goal_node_is_goal _ _ Hs))|reflexivity].
    + split; reflexivity.
Qed.

(** C5: when the stored path is found invalid, [replanning] returns [None]
    with the stored path cleared and the tree empty: the probe runs on the
    tree [Tree.remove] has just emptied, so it finds no goal node. *)
Theorem replanning_invalid_returns_none (current_pose : SE2Transform.t) (self : Self) :
  check_path_valid (remove_driven_nodes current_pose self) = false ->
  search_best_goal_node
    (set_tree (Tree.remove (tree (remove_driven_nodes current_pose self)))
              (remove_driven_nodes current_pose self)) = None /\
  replanning current_pose self =
  (Ok None, set_path None (set_tree [] (remove_driven_nodes current_pose self))).
Proof.
  intros Hinv. split; [reflexivity|].
  rewrite replanning_unfold. cbv zeta. rewrite Hinv. reflexivity.
Qed.

(** *** No exception on a well-formed planner *)

Lemma constrained_steer_returns (self : Self) (from to_node : AnyNode.t) (e : Q) :
  generator_samples -> (0 < path_resolution self)%Q ->
  exists r, constrained_steer self (Some from) to_node e = Ok r.
Proof.
  intros Hgen Hres. unfold constrained_steer.
  set (first := dubins_between self (AnyNode.pose from) (AnyNode.pose to_node)).
  destruct (length (fst (fst first)) <=? 1) eqn:Hlen; [eauto|].
  apply Nat.leb_gt in Hlen.
  destruct (py_div_pos 3 (path_resolution self)) as [Hq Hidx]; [discriminate|exact Hres|].
  rewrite Hq. cbn [bindO].
  assert (Hfinal : exists final,
             truncate self (AnyNode.pose from) first (py_int (3 / path_resolution self)) = Ok final
             /\ fst (fst final) <> []).
  { unfold truncate.
    destruct (py_int (3 / path_resolution self) <? _)%Z eqn:Hcut.
    - apply Z.ltb_lt in Hcut.
      destruct (py_getitem_in_range (fst (fst first)) (py_int (3 / path_resolution self)))
        as [target Ht]; [lia|].
      rewrite Ht. cbn [bindO]. eexists. split; [reflexivity|]. apply Hgen.
    - exists first. split; [reflexivity|].
      intros Hnil. rewrite Hnil in Hlen. cbn in Hlen. lia. }
  destruct Hfinal as (final & -> & Hne). cbn [bindO].
  destruct (py_getitem_last _ Hne) as [last ->]. cbn [bindO]. eauto.
Qed.

Lemma candidate_returns (self : Self) :
  generator_samples -> well_formed self -> exists r, candidate self = Ok r.
Proof.
  intros Hgen (Htree & _ & Hres). unfold candidate, get_nearest_node_from_tree, Tree.nearest.
  destruct (Tree.values (tree self)) as [|n rest] eqn:Hv.
  - destruct (tree self); [congruence|discriminate].
  - apply constrained_steer_returns; assumption.
Qed.

Lemma labelled_id (self : Self) (n : AnyNode.t) :
  AnyNode.id (labelled self n) = pretty (number_nodes self + 1)%Z.
Proof. reflexivity. Qed.

(** One round of sample, steer, check and insert returns, and keeps the
    planner well formed and its settings as they were. *)
Lemma grow_returns (self : Self) :
  generator_samples -> well_formed self ->
  exists g self',
    grow self = (Ok g, self') /\ well_formed self' /\
    search_until_max_iter self' = search_until_max_iter self.
Proof.
  intros Hgen Hwf. rewrite grow_unfold. cbn zeta.
  destruct (candidate_returns self Hgen Hwf) as [[n|] ->].
  - destruct (collision (scenario self) n).
    + eexists _, _. split; [reflexivity|]. split; [exact Hwf|reflexivity].
    + destruct Hwf as (Htree & Hfresh & Hres).
      unfold Tree.insert. rewrite labelled_id.
      rewrite existsb_eqb_false by (apply Hfresh; lia).
      eexists _, _. split; [reflexivity|]. split; [|reflexivity].
      split; [|split].
      * cbn. intros H. apply app_eq_nil in H. destruct H as [_ H]. discriminate.
      * intros k Hk. cbn in Hk |- *. unfold Tree.keys. rewrite map_app. cbn.
        intros Hin. apply in_app_or in Hin. destruct Hin as [Hin|[Heq|[]]].
        -- apply (Hfresh k); [lia|exact Hin].
        -- apply (inj pretty) in Heq. lia.
      * exact Hres.
  - eexists _, _. split; [reflexivity|]. split; [exact Hwf|reflexivity].
Qed.




(** [expand_tree] returns as well, and keeps the planner well formed. *)
Lemma expand_tree_returns (self : Self) :
  generator_samples -> well_formed self ->
  exists self', expand_tree self = (Ok tt, self') /\ well_formed self'.
Proof.
  intros Hgen. unfold expand_tree, bindM at 1, get.
  generalize (Z.to_nat (expand_iter self)). intros n. revert self.
  induction n as [|n IH]; intros self Hwf.
  - exists self. split; [reflexivity|exact Hwf].
  - cbn [expand_loop]. unfold bindM at 1.
    destruct (grow_returns self Hgen Hwf) as (g & s1 & -> & Hwf1 & _).
    apply IH. exact Hwf1.
Qed.


End PlannerFacts.

(** ** The properties on the concrete world *)

Module DemoFacts.
Import Demo.





(** Planning twice from the origin on the open road: the second node hangs
    below the first, three units further, and both carry the cost 3. *)
Example planning_costs_are_not_cumulative :
  map (fun kv => (fst kv, AnyNode.parent (snd kv), AnyNode.cost (snd kv)))
      (tree (snd (planning (Ext:=world) open_road)))
  = [("0", None, 0%Q); ("1", Some "0", 3%Q); ("2", Some "1", 3%Q)].
Proof. vm_compute. reflexivity. Qed.

Lemma second_growth :
  exists self', grow (Ext:=world) (snd (grow (Ext:=world) open_road))
                = (Ok (Some node2, true), self').
Proof. eexists. vm_compute. reflexivity. Qed.

Lemma inserted_cost_witness :
  exists self',
    grow (Ext:=world) (snd (grow (Ext:=world) open_road)) = (Ok (Some node2, true), self') /\
    AnyNode.parent node2 = Some (AnyNode.id node1) /\
    In node1 (Tree.values (tree (snd (grow (Ext:=world) open_road)))) /\
    ~ (AnyNode.cost node2 == AnyNode.cost node1 + 3)%Q.
Proof.
  destruct second_growth as (self' & Hrun). exists self'.
  split; [exact Hrun|].
  destruct (inserted_cost_forgets_parent (Ext:=world) _ _ _ Hrun)
    as (from & segment & Hnear & _ & Hparent & _ & Hcost & Hbreak).
  assert (Hfrom : from = node1).
  { assert (Hn : get_nearest_node_from_tree
                   (tree (snd (grow (Ext:=world) open_road)))
                   (fst (get_random_node (External:=world)
                           (rng (snd (grow (Ext:=world) open_road))))) = Some node1)
      by (vm_compute; reflexivity).
    rewrite Hn in Hnear. injection Hnear as <-. reflexivity. }
  subst from.
  split; [exact Hparent|].
  split; [vm_compute; right; left; reflexivity|].
  intros Heq. apply Hbreak.
  - intros H. vm_compute in H. discriminate.
  - rewrite Heq. apply Qplus_inj_l.
    change (AnyNode.cost node2) with 3%Q in Hcost.
    change AnyNode_default_cost with 0%Q in Hcost.
    rewrite Hcost at 1. apply Qplus_0_l.
Defined.


Lemma probe_without_insertion :
  exists it self',
    planning_iteration (Ext:=world) walled = (Ok it, self') /\
    search_until_max_iter walled = false /\
    probed it = true /\ added it = false /\ tree self' = tree walled.
Proof.
  eexists _, _. split; [vm_compute; reflexivity|]. repeat split.
Qed.

Lemma planning_iteration_probe_witness :
  exists it self',
    planning_iteration (Ext:=world) eager = (Ok it, self') /\
    (probed it = true <-> exists n, candidate (Ext:=world) eager = Ok (Some n)) /\
    (added it = true -> probed it = true).
Proof.
  assert (Hrun : exists it self', planning_iteration (Ext:=world) eager = (Ok it, self'))
    by (eexists _, _; vm_compute; reflexivity).
  destruct Hrun as (it & self' & Hrun). exists it, self'.
  split; [exact Hrun|].
  destruct (planning_iteration_probe (Ext:=world) eager self' it eq_refl Hrun)
    as (Hprobed & _ & Hadded & _).
  split; assumption.
Defined.

Lemma replanning_invalid_witness :
  check_path_valid (External:=world) (remove_driven_nodes (External:=world) origin blocked) = false /\
  path blocked <> None /\
  fst (replanning (Ext:=world) origin blocked) = Ok None /\
  path (snd (replanning (Ext:=world) origin blocked)) = None /\
  tree (snd (replanning (Ext:=world) origin blocked)) = [].
Proof.
  assert (Hinvalid :
            check_path_valid (External:=world) (remove_driven_nodes (External:=world) origin blocked)
            = false) by (vm_compute; reflexivity).
  split; [exact Hinvalid|]. split; [vm_compute; discriminate|].
  destruct (replanning_invalid_returns_none (Ext:=world) origin blocked Hinvalid)
    as [_ Hrun].
  rewrite Hrun. repeat split.
Defined.



End DemoFacts.

(** * The rocket, the scenario factory and runs of the planner *)

(** ** [RocketState] and the arithmetic of the dataclasses *)

Module RocketStateFacts.
Import Rocket.

Lemma state_entries :
  dict_getitem RocketState.idx "x" = Ok 0 /\
  dict_getitem RocketState.idx "y" = Ok 1 /\
  dict_getitem RocketState.idx "psi" = Ok 2 /\
  dict_getitem RocketState.idx "m" = Ok 3 /\
  dict_getitem RocketState.idx "vx" = Ok 4 /\
  dict_getitem RocketState.idx "vy" = Ok 5 /\
  dict_getitem RocketState.idx "dpsi" = Ok 6 /\
  dict_getitem RocketState.idx "phi" = Ok 7.
Proof. vm_compute. repeat split. Qed.

Lemma state_assert_cases (z : ndarray) :
  (RocketState.from_array_assert z = Ok tt /\
   nd_size z = 8 /\ exists rest, shape z = 8 :: rest) \/
  (RocketState.from_array_assert z = Raise AssertionError /\
   ~ (nd_size z = 8 /\ exists rest, shape z = 8 :: rest)).
Proof.
  unfold RocketState.from_array_assert, nd_shape0, py_getitem.
  change RocketState.get_n_states with 8.
  destruct (8 =? nd_size z) eqn:Hsz.
  - apply Nat.eqb_eq in Hsz.
    destruct (shape z) as [|d rest] eqn:Hsh.
    + exfalso. unfold nd_size in Hsz. rewrite Hsh in Hsz. cbn in Hsz. lia.
    + simpl. destruct (nd_size z =? d) eqn:Hd.
      * apply Nat.eqb_eq in Hd. left. repeat split; [lia|].
        exists rest. f_equal. lia.
      * apply Nat.eqb_neq in Hd. right. split; [reflexivity|].
        intros (Hs & rest' & Hr). injection Hr as -> _. lia.
  - apply Nat.eqb_neq in Hsz. right. split; [reflexivity|].
    intros (Hs & _). lia.
Qed.

(** What [from_array] reads once the assertion has passed. *)
Lemma state_from_array_passed (z : ndarray) (rest : list nat) :
  RocketState.from_array_assert z = Ok tt -> shape z = 8 :: rest ->
  RocketState.from_array z =
  (a <- nd_getitem z 0 ;; b <- nd_getitem z 1 ;; c <- nd_getitem z 2 ;;
   d <- nd_getitem z 3 ;; e <- nd_getitem z 4 ;; f <- nd_getitem z 5 ;;
   g <- nd_getitem z 6 ;; h <- nd_getitem z 7 ;;
   Ok (RocketState.mk a b c d e f g h)).
Proof.
  intros Ha Hsh. unfold RocketState.from_array, RocketState.entry. rewrite Ha.
  destruct state_entries as (-> & -> & -> & -> & -> & -> & -> & ->).
  cbn [bindO].
  destruct (nd_getitem z 0) as [a|]; [|reflexivity].
  destruct (nd_getitem z 1) as [b|]; [|reflexivity].
  destruct (nd_getitem z 2) as [c|]; [|reflexivity].
  destruct (nd_getitem z 3) as [d|]; [|reflexivity].
  destruct (nd_getitem z 4) as [e|]; [|reflexivity].
  destruct (nd_getitem z 5) as [f|]; [|reflexivity].
  destruct (nd_getitem z 6) as [g|]; [|reflexivity].
  destruct (nd_getitem z 7) as [h|]; reflexivity.
Qed.

Lemma nd_getitem_cases (z : ndarray) (rest : list nat) (i : nat) :
  shape z = 8 :: rest -> i < 8 ->
  nd_getitem z i = match data z !! i with Some q => Ok q | None => Raise IndexError end.
Proof.
  intros Hsh Hi. unfold nd_getitem. rewrite Hsh.
  destruct (i <? 8) eqn:E; [reflexivity|]. apply Nat.ltb_ge in E. lia.
Qed.

(** X1: [RocketState.from_array] undoes [as_ndarray]: every state is read
    back from its array. *)
Theorem state_from_array_as_ndarray (s : RocketState.t) :
  RocketState.from_array (RocketState.as_ndarray s) = Ok s.
Proof. destruct s. vm_compute. reflexivity. Qed.

(** X2: [RocketState.from_array] raises [AssertionError] exactly on the arrays
    that do not have 8 entries along a first axis of length 8; and a
    one-dimensional array of 8 entries is read into a state whose array is
    that array again. *)
Theorem state_from_array_checks (z : ndarray) :
  (RocketState.from_array z = Raise AssertionError <->
   ~ (nd_size z = 8 /\ exists rest, shape z = 8 :: rest)) /\
  (shape z = [8] -> length (data z) = 8 ->
   exists s, RocketState.from_array z = Ok s /\ RocketState.as_ndarray s = z).
Proof.
  split.
  - destruct (state_assert_cases z) as [(Ha & Hsz & rest & Hsh)|(Ha & Hno)].
    + pose proof (state_from_array_passed z rest Ha Hsh) as Hrun.
      rewrite !(nd_getitem_cases z rest) in Hrun by (assumption || lia).
      split; [|intros H; exfalso; apply H; eauto].
      rewrite Hrun.
      destruct (data z) as [|a [|b [|c [|d [|e [|f [|g [|h tl]]]]]]]]; cbn; discriminate.
    + split; [intros _; exact Hno|intros _].
      unfold RocketState.from_array. rewrite Ha. reflexivity.
  - intros Hsh Hlen. destruct z as [sh dat]. cbn in Hsh, Hlen. subst sh.
    destruct dat as [|a [|b [|c [|d [|e [|f [|g [|h [|i tl]]]]]]]]]; try discriminate.
    eexists. split; vm_compute; reflexivity.
Qed.

End RocketStateFacts.

Module RocketArithFacts.
Import Rocket RocketArith.

(** X3: [a - b] on commands is the field-wise difference; subtracting
    anything that is not a [RocketCommands] raises [NotImplementedError]. *)
Theorem commands_sub (a b : RocketCommands) :
  (exists r,
      sub a (Commands b) = Return r /\
      (F_left r == F_left a - F_left b)%Q /\
      (F_right r == F_right a - F_right b)%Q /\
      (dphi r == dphi a - dphi b)%Q) /\
  (forall s, sub a (State s) = Throw NotImplementedError) /\
  (forall q, sub a (Float q) = Throw NotImplementedError).
Proof.
  split; [|split; reflexivity].
  eexists. split; [reflexivity|]. cbn.
  split; [ring|]. split; ring.
Qed.

Lemma sum_from_commands (cs : list RocketCommands) :
  forall c0, exists r,
    sum_from (Commands c0) (map Commands cs) = Return (Commands r) /\
    F_left r = fold_left Qplus (map F_left cs) (F_left c0) /\
    F_right r = fold_left Qplus (map F_right cs) (F_right c0) /\
    dphi r = fold_left Qplus (map dphi cs) (dphi c0).
Proof.
  induction cs as [|c cs IH]; intros c0.
  - exists c0. repeat split.
  - cbn. destruct (IH (mkRocketCommands (F_left c0 + F_left c) (F_right c0 + F_right c)
                                        (dphi c0 + dphi c))) as (r & Hr & H1 & H2 & H3).
    exists r. repeat split; assumption.
Qed.

(** X4: [sum] over a non-empty list of commands raises [NotImplementedError]:
    it starts from [0], and [__radd__], being [__add__], refuses the [0] as
    it refuses everything that is not a [RocketCommands].  Given a
    [RocketCommands] to start from, it returns the field-wise sums. *)
Theorem commands_sum (c : RocketCommands) (cs : list RocketCommands) :
  sum (map Commands (c :: cs)) = Throw NotImplementedError /\
  radd c (Float 0) = Throw NotImplementedError /\
  exists r,
    sum_from (Commands c) (map Commands cs) = Return (Commands r) /\
    F_left r = fold_left Qplus (map F_left cs) (F_left c) /\
    F_right r = fold_left Qplus (map F_right cs) (F_right c) /\
    dphi r = fold_left Qplus (map dphi cs) (dphi c).
Proof.
  split; [reflexivity|]. split; [reflexivity|]. apply sum_from_commands.
Qed.


(** X26: [s - t] on states is the field-wise difference; [s / 0] raises
    [ZeroDivisionError]; and the two dataclasses do not mix: adding commands
    to a state, or a state to commands, raises [NotImplementedError]. *)
Theorem state_sub_and_mixing (s t : RocketState.t) (c : RocketCommands) :
  (exists r,
      state_sub s (State t) = Return r /\
      (RocketState.x r == RocketState.x s - RocketState.x t)%Q /\
      (RocketState.y r == RocketState.y s - RocketState.y t)%Q /\
      (RocketState.psi r == RocketState.psi s - RocketState.psi t)%Q /\
      (RocketState.m r == RocketState.m s - RocketState.m t)%Q /\
      (RocketState.vx r == RocketState.vx s - RocketState.vx t)%Q /\
      (RocketState.vy r == RocketState.vy s - RocketState.vy t)%Q /\
      (RocketState.dpsi r == RocketState.dpsi s - RocketState.dpsi t)%Q /\
      (RocketState.phi r == RocketState.phi s - RocketState.phi t)%Q) /\
  state_truediv s 0 = Throw (Builtin ZeroDivisionError) /\
  state_add s (Commands c) = Throw NotImplementedError /\
  add c (State s) = Throw NotImplementedError /\
  state_sub s (Commands c) = Throw NotImplementedError /\
  sub c (State s) = Throw NotImplementedError.
Proof.
  split; [|repeat split].
  eexists. split; [reflexivity|]. cbn. repeat split; ring.
Qed.

End RocketArithFacts.

Module RocketModelFacts.
Import Rocket.

Section WithEnv.

Context {RocketGeometry RocketParameters : Type}
        {Env : RocketEnv RocketGeometry RocketParameters}.

Abbreviation Model := (RocketModel.t RocketGeometry RocketParameters).

Lemma pack_run (s : RocketState.t) (c : RocketCommands) :
  RocketModel.pack s c =
  Return (mkArray [11] (data (RocketState.as_ndarray s) ++ data (as_ndarray c))).
Proof. reflexivity. Qed.

Lemma unpack_packed (self : Model) (s : RocketState.t) (c : RocketCommands) :
  RocketModel._stateactions_from_array
    self (mkArray [11] (data (RocketState.as_ndarray s) ++ data (as_ndarray c)))
  = Ok (s, RocketModel.effective self c).
Proof.
  unfold RocketModel.effective. destruct self as [st [|] g p], s, c; vm_compute; reflexivity.
Qed.

(** X6: the vector [update] packs from a state and commands has 11 entries,
    and the integrator's right-hand side unpacks it to that state and, unless
    the model has collided, those commands; after a collision it unpacks to
    zero commands. *)
Theorem stateactions_of_packed (self : Model) (s : RocketState.t) (c : RocketCommands) :
  match RocketModel.pack s c with
  | Return y =>
      nd_size y = 11 /\
      RocketModel._stateactions_from_array self y =
      Ok (s, if RocketModel.has_collided self then mkRocketCommands 0 0 0 else c)
  | Throw _ => False
  end.
Proof.
  rewrite pack_run. split; [reflexivity|]. apply unpack_packed.
Qed.

Lemma rhs_packed (self : Model) (time : Q) (s : RocketState.t) (c : RocketCommands) :
  RocketModel._dynamics
    self time (mkArray [11] (data (RocketState.as_ndarray s) ++ data (as_ndarray c)))
  = (dx <== of_outcome (RocketModel.dynamics self s (RocketModel.effective self c)) ;;
     Return (mkArray [11] (data (RocketState.as_ndarray dx) ++ [0%Q; 0%Q; 0%Q]))).
Proof.
  unfold RocketModel._dynamics. rewrite unpack_packed. cbn [of_outcome bindR fst snd].
  destruct (RocketModel.dynamics _ _ _); reflexivity.
Qed.

(** X7: on a packed vector the right-hand side returns the derivative of the
    state followed by three zeros: the commands are held constant over the
    step.  After a collision it does not depend on the commands at all. *)
Theorem dynamics_of_packed (self : Model) (time : Q) (s : RocketState.t)
    (c c' : RocketCommands) :
  match RocketModel.pack s c, RocketModel.pack s c' with
  | Return y, Return y' =>
      RocketModel._dynamics self time y =
      (dx <== of_outcome
                (RocketModel.dynamics
                   self s (if RocketModel.has_collided self then mkRocketCommands 0 0 0 else c)) ;;
       Return (mkArray [11] (data (RocketState.as_ndarray dx) ++ [0%Q; 0%Q; 0%Q]))) /\
      (RocketModel.has_collided self = true ->
       RocketModel._dynamics self time y' = RocketModel._dynamics self time y)
  | _, _ => False
  end.
Proof.
  rewrite !pack_run. split; [apply rhs_packed|].
  intros Hcol. rewrite !rhs_packed. unfold RocketModel.effective. rewrite Hcol. reflexivity.
Qed.

Lemma dynamics_inv (self : Model) (x0 d : RocketState.t) (u : RocketCommands) :
  RocketModel.dynamics self x0 u = Ok d ->
  let F_lx := apply_force_limits (F_left u) (RocketModel.rp self) in
  let F_rx := apply_force_limits (F_right u) (RocketModel.rp self) in
  exists inv_m inv_Iz,
    py_div 1 (RocketState.m x0) = Ok inv_m /\
    py_div 1 (Iz (RocketModel.rg self)) = Ok inv_Iz /\
    d = RocketState.mk
          (RocketState.vx x0) (RocketState.vy x0) (RocketState.dpsi x0)
          (- C_T (RocketModel.rp self) * (F_lx + F_rx))%Q
          (inv_m * (sin (RocketState.phi x0 + RocketState.psi x0) * F_lx
                    + sin (RocketState.phi x0 - RocketState.psi x0) * F_rx))%Q
          (inv_m * (- cos (RocketState.phi x0 + RocketState.psi x0) * F_lx
                    + cos (RocketState.phi x0 - RocketState.psi x0) * F_rx))%Q
          (inv_Iz * l_m (RocketModel.rg self) * cos (RocketState.phi x0) * (F_rx - F_lx))%Q
          (apply_full_ang_vel_limits (RocketState.phi x0) (dphi u) (RocketModel.rp self)).
Proof.
  unfold RocketModel.dynamics. intros H.
  destruct (py_div 1 (RocketState.m x0)) as [inv_m|]; [|discriminate].
  cbn [bindO] in H.
  destruct (py_div 1 (Iz (RocketModel.rg self))) as [inv_Iz|]; [|discriminate].
  cbn [bindO] in H. injection H as <-. exists inv_m, inv_Iz. repeat split.
Qed.

(** X8: with the same thrust commanded on both engines the derivative has no
    angular acceleration. *)
Theorem equal_thrust_no_torque (self : Model) (x0 d : RocketState.t) (u : RocketCommands) :
  RocketModel.dynamics self x0 u = Ok d ->
  F_left u = F_right u ->
  (RocketState.dpsi d == 0)%Q.
Proof.
  intros Hd Heq.
  destruct (dynamics_inv _ _ _ _ Hd) as (inv_m & inv_Iz & _ & _ & ->).
  cbn. rewrite Heq. ring.
Qed.


(** X10: [update] raises [RuntimeError] when the integrator reports failure;
    when it returns, the integrator succeeded, only the state of the model
    has changed, and the new state is read from the first 8 entries of the
    last column: what the integrator left in the other 3 is dropped. *)
Theorem update_outcome (self : Model) (commands : RocketCommands) (dt : Q) :
  match RocketModel.pack (RocketModel._state self) commands with
  | Return y0 =>
      let result := solve_ivp (RocketModel._dynamics self) (0%Q, dt) y0 in
      (success result = false ->
       RocketModel.update self commands dt = Throw RuntimeError) /\
      (forall self',
          RocketModel.update self commands dt = Return self' ->
          success result = true /\
          RocketModel.has_collided self' = RocketModel.has_collided self /\
          RocketModel.rg self' = RocketModel.rg self /\
          RocketModel.rp self' = RocketModel.rp self /\
          exists z,
            Numpy.slice_to (last_column result) 8 = Ok z /\
            RocketState.from_array z = Ok (RocketModel._state self'))
  | Throw _ => False
  end.
Proof.
  unfold RocketModel.update. rewrite pack_run. cbn [bindR]. cbv zeta.
  set (result := solve_ivp _ _ _).
  destruct (success result) eqn:Hs; cbn [negb].
  - split; [discriminate|].
    intros self'. unfold RocketModel._stateactions_from_array.
    change RocketState.get_n_states with 8.
    destruct (Numpy.slice_to (last_column result) 8) as [z|]; [|discriminate].
    cbn [bindO of_outcome].
    destruct (RocketState.from_array z) as [st|] eqn:Hst; [|discriminate].
    cbn [bindO].
    match goal with |- context [bindO ?a _] => destruct a as [act|] end;
      [|discriminate].
    cbn. intros H. injection H as <-. cbn. repeat split. exists z. split; [reflexivity|exact Hst].
  - split; [reflexivity|]. discriminate.
Qed.

(** X11: a velocity set in the model frame is the velocity read in the model
    frame; the angular velocity is stored and read as it is, whatever the two
    frames; and setting a velocity, in either frame, leaves position,
    heading, mass, nozzle angle and collision flag as they were. *)
Theorem set_velocity_get_velocity (self : Model) (vel : Q * Q) (dpsi : Q) (frame : bool) :
  RocketModel.get_velocity (RocketModel.set_velocity self vel dpsi true) true = (vel, dpsi) /\
  (forall frame' : bool,
      snd (RocketModel.get_velocity (RocketModel.set_velocity self vel dpsi frame) frame')
      = dpsi) /\
  let s := RocketModel._state self in
  let s' := RocketModel._state (RocketModel.set_velocity self vel dpsi frame) in
  RocketState.x s' = RocketState.x s /\ RocketState.y s' = RocketState.y s /\
  RocketState.psi s' = RocketState.psi s /\ RocketState.m s' = RocketState.m s /\
  RocketState.phi s' = RocketState.phi s /\
  RocketModel.has_collided (RocketModel.set_velocity self vel dpsi frame)
  = RocketModel.has_collided self.
Proof.
  destruct vel as [vx vy]. split; [reflexivity|]. split.
  - intros [|]; destruct frame; reflexivity.
  - cbn. repeat split.
Qed.

End WithEnv.

End RocketModelFacts.

Module RocketDemoFacts.
Import Rocket RocketDemo.

Lemma full_thrust_derivative :
  exists d, RocketModel.dynamics (Env:=env) rocket start full_thrust = Ok d.
Proof. eexists. vm_compute. reflexivity. Qed.

Lemma equal_thrust_no_torque_witness :
  exists d,
    RocketModel.dynamics (Env:=env) rocket start full_thrust = Ok d /\
    (RocketState.dpsi d == 0)%Q.
Proof.
  destruct full_thrust_derivative as (d & Hd). exists d. split; [exact Hd|].
  exact (RocketModelFacts.equal_thrust_no_torque (Env:=env) rocket start d full_thrust
           Hd eq_refl).
Defined.


(** One step of a tenth of a second at full thrust burns mass and leaves the
    rocket where it was. *)
Example one_step :
  match RocketModel.update (Env:=env) rocket full_thrust (1 # 10) with
  | Return r =>
      (RocketState.m (RocketModel._state r) == 206 # 100)%Q /\
      (RocketState.x (RocketModel._state r) == -8)%Q
  | Throw _ => False
  end.
Proof. vm_compute. split; reflexivity. Qed.

End RocketDemoFacts.

(** ** The scenario factory *)

Module FactoryFacts.
Import Factory.

Section WithCommonRoad.

Context {Scenario Problems Obstacle Lanelets Model Agent SimParameters : Type}
        {CR : CommonRoad Scenario Problems Obstacle Lanelets Model Agent SimParameters}.

Abbreviation Loaded := (@Factory.Loaded Model Agent).

Lemma player_name_inj (i j : nat) : player_name i = player_name j -> i = j.
Proof.
  unfold player_name. cbn. intros H. injection H as H. exact (inj pretty _ _ H).
Qed.

Lemma stored_name_inj (ego : option string) (i j : nat) :
  stored_name ego i = stored_name ego j -> i = j.
Proof.
  unfold stored_name. repeat case_bool_decide.
  - intros _. apply player_name_inj. congruence.
  - unfold player_name. cbn. discriminate.
  - unfold player_name. cbn. discriminate.
  - apply player_name_inj.
Qed.

Lemma load_one_unfold (ego : option string) (net : Lanelets) (acc : Loaded)
    (i : nat) (o : Obstacle) :
  load_one ego net acc i o =
  match conversion ego net i o with
  | Return (model, agent) =>
      Return (<[stored_name ego i := agent]> (fst (fst acc)),
              <[stored_name ego i := model]> (snd (fst acc)),
              snd acc)
  | Throw (NotSupportedConversion (Text msg)) =>
      Return (fst acc,
              snd acc ++ [Warn ("Unable to convert commonroad dynamic obstacle due to "
                                +:+ msg +:+ " skipping...")])
  | Throw e => Throw (raised_for e)
  end.
Proof.
  unfold load_one, conversion, stored_name.
  case_bool_decide; cbn [fst snd];
    destruct (model_agent_from_dynamic_obstacle _ _ _) as [[model agent]|[| | | |[| |msg]|]];
    reflexivity.
Qed.

(** What the loop leaves, from any index and any dictionaries. *)
Lemma load_from_spec (ego : option string) (net : Lanelets) (obstacles : list Obstacle) :
  forall (i0 : nat) (acc out : Loaded),
    load_from ego net i0 obstacles acc = Return out ->
    (forall j o, obstacles !! j = Some o ->
       match conversion ego net (i0 + j) o with
       | Return (model, agent) =>
           fst (fst out) !! stored_name ego (i0 + j) = Some agent /\
           snd (fst out) !! stored_name ego (i0 + j) = Some model
       | Throw e =>
           (exists msg, e = NotSupportedConversion (Text msg)) /\
           fst (fst out) !! stored_name ego (i0 + j)
           = fst (fst acc) !! stored_name ego (i0 + j) /\
           snd (fst out) !! stored_name ego (i0 + j)
           = snd (fst acc) !! stored_name ego (i0 + j)
       end) /\
    (forall k, (forall j, j < length obstacles -> k <> stored_name ego (i0 + j)) ->
       fst (fst out) !! k = fst (fst acc) !! k /\
       snd (fst out) !! k = snd (fst acc) !! k) /\
    length (List.filter is_warn (snd out))
    + converted_from ego net i0 obstacles
    = length (List.filter is_warn (snd acc)) + length obstacles.
Proof.
  induction obstacles as [|o rest IH]; intros i0 acc out Hrun.
  - cbn in Hrun. injection Hrun as <-. split; [|split].
    + intros j o' Hj. rewrite lookup_nil in Hj. discriminate.
    + intros k _. split; reflexivity.
    + cbn. lia.
  - cbn [load_from] in Hrun. rewrite load_one_unfold in Hrun.
    assert (Hstep : exists acc1,
               load_from ego net (S i0) rest acc1 = Return out /\
               match conversion ego net i0 o with
               | Return (model, agent) =>
                   acc1 = (<[stored_name ego i0 := agent]> (fst (fst acc)),
                           <[stored_name ego i0 := model]> (snd (fst acc)),
                           snd acc)
               | Throw e =>
                   exists msg,
                     e = NotSupportedConversion (Text msg) /\
                     fst acc1 = fst acc /\
                     List.filter is_warn (snd acc1)
                     = List.filter is_warn (snd acc) ++ [Warn ("Unable to convert commonroad dynamic obstacle due to " +:+ msg +:+ " skipping...")]
               end).
    { destruct (conversion ego net i0 o) as [[model agent]|e].
      - eexists. split; [exact Hrun|reflexivity].
      - destruct e as [| | | |[| |msg]|]; try discriminate.
        eexists. split; [exact Hrun|]. exists msg. cbn. repeat split.
        rewrite List.filter_app. reflexivity. }
    destruct Hstep as (acc1 & Hrest & Hhead).
    destruct (IH (S i0) acc1 out Hrest) as (Hin & Hout & Hcount).
    assert (Hkeep : fst (fst out) !! stored_name ego i0 = fst (fst acc1) !! stored_name ego i0 /\
                    snd (fst out) !! stored_name ego i0 = snd (fst acc1) !! stored_name ego i0).
    { apply Hout. intros j _ Heq. apply stored_name_inj in Heq. lia. }
    split; [|split].
    + intros [|j] o' Hj.
      * cbn in Hj. injection Hj as <-. rewrite Nat.add_0_r.
        destruct Hkeep as [Hp Hm]. rewrite Hp, Hm.
        destruct (conversion ego net i0 o) as [[model agent]|e].
        -- subst acc1. cbn. rewrite !lookup_insert_eq. split; reflexivity.
        -- destruct Hhead as (msg & -> & Hacc & _). rewrite Hacc.
           split; [eauto|]. split; reflexivity.
      * cbn in Hj. specialize (Hin j o' Hj).
        replace (i0 + S j) with (S i0 + j) by lia.
        destruct (conversion ego net (S i0 + j) o') as [[model agent]|e]; [exact Hin|].
        destruct Hin as (Hmsg & Hp & Hm). split; [exact Hmsg|].
        rewrite Hp, Hm.
        assert (Hne : stored_name ego i0 <> stored_name ego (S i0 + j)).
        { intros Heq. apply stored_name_inj in Heq. lia. }
        destruct (conversion ego net i0 o) as [[model0 agent0]|e0].
        -- subst acc1. cbn. rewrite !lookup_insert_ne by exact Hne. split; reflexivity.
        -- destruct Hhead as (msg & _ & Hacc & _). rewrite Hacc. split; reflexivity.
    + intros k Hk.
      destruct (Hout k) as [Hp Hm].
      { intros j Hj. replace (S i0 + j) with (i0 + S j) by lia. apply Hk. cbn. lia. }
      rewrite Hp, Hm.
      assert (Hne : stored_name ego i0 <> k).
      { intros Heq. apply (Hk 0); [cbn; lia|]. rewrite Nat.add_0_r. congruence. }
      destruct (conversion ego net i0 o) as [[model0 agent0]|e0].
      * subst acc1. cbn. rewrite !lookup_insert_ne by exact Hne. split; reflexivity.
      * destruct Hhead as (msg & _ & Hacc & _). rewrite Hacc. split; reflexivity.
    + cbn [converted_from length].
      destruct (conversion ego net i0 o) as [[model0 agent0]|e0].
      * subst acc1. cbn in Hcount. lia.
      * destruct Hhead as (msg & _ & _ & Hw). rewrite Hw in Hcount.
        rewrite length_app in Hcount. cbn in Hcount. lia.
Qed.

(** The two dictionaries keep the same keys, and the players number the
    conversions that returned, once no name in use lies ahead. *)
Lemma load_from_size (ego : option string) (net : Lanelets) (obstacles : list Obstacle) :
  forall (i0 : nat) (acc out : Loaded),
    load_from ego net i0 obstacles acc = Return out ->
    dom (fst (fst acc)) = dom (snd (fst acc)) ->
    (forall k, is_Some (fst (fst acc) !! k) -> exists j, j < i0 /\ k = stored_name ego j) ->
    dom (fst (fst out)) = dom (snd (fst out)) /\
    size (fst (fst out)) = size (fst (fst acc)) + converted_from ego net i0 obstacles.
Proof.
  induction obstacles as [|o rest IH]; intros i0 acc out Hrun Hdom Hold.
  - cbn in Hrun. injection Hrun as <-. cbn. split; [exact Hdom|lia].
  - cbn [load_from] in Hrun. rewrite load_one_unfold in Hrun.
    cbn [converted_from].
    destruct (conversion ego net i0 o) as [[model agent]|e].
    + cbn [bindR] in Hrun.
      apply IH in Hrun.
      * destruct Hrun as [Hd Hs]. split; [exact Hd|]. rewrite Hs. cbn [fst snd].
        rewrite map_size_insert_None; [lia|].
        destruct (fst (fst acc) !! stored_name ego i0) eqn:Hl; [|reflexivity].
        destruct (Hold (stored_name ego i0)) as (j & Hj & Heq); [eauto|].
        apply stored_name_inj in Heq. lia.
      * cbn [fst snd]. rewrite !dom_insert_L, Hdom. reflexivity.
      * cbn [fst snd]. intros k Hk.
        destruct (decide (k = stored_name ego i0)) as [->|Hne].
        -- exists i0. split; [lia|reflexivity].
        -- rewrite lookup_insert_ne in Hk by congruence.
           destruct (Hold k Hk) as (j & Hj & Heq). exists j. split; [lia|exact Heq].
    + destruct e as [| | | |[| |msg]|]; try discriminate. cbn [bindR] in Hrun.
      apply IH in Hrun.
      * cbn [fst snd] in Hrun. destruct Hrun as [Hd Hs]. split; [exact Hd|]. lia.
      * exact Hdom.
      * cbn [fst snd]. intros k Hk.
        destruct (Hold k Hk) as (j & Hj & Heq). exists j. split; [lia|exact Heq].
Qed.

Lemma replica_inv (name : string) (sim_param : option SimParameters)
    (ego : option string) (ctx : SimContext Scenario Model Agent SimParameters)
    (logs : list LogLine) :
  get_scenario_commonroad_replica name sim_param ego = Return (ctx, logs) ->
  exists problems warnings,
    load_commonroad_scenario name = Return (scenario ctx, problems) /\
    load_from ego (lanelet_network (scenario ctx)) 0 (dynamic_obstacles (scenario ctx))
              (∅, ∅, []) = Return (players ctx, models ctx, warnings) /\
    logs = warnings ++ [Info ("Managed to load " +:+ pretty (size (players ctx)))] /\
    param ctx = match sim_param with None => default_parameters | Some p => p end.
Proof.
  unfold get_scenario_commonroad_replica.
  destruct (load_commonroad_scenario name) as [[sc problems]|]; [|discriminate].
  cbn [bindR fst].
  destruct (load_from _ _ _ _ _) as [[[P M] L]|] eqn:Hl; [|discriminate].
  cbn. intros H. injection H as <- <-. cbn. exists problems, L. repeat split. exact Hl.
Qed.

(** X12: when the factory returns, every dynamic obstacle whose conversion
    returned is in [players] and in [models] under its name -- ["Ego"] if
    [f"P{i}"] is the ego player, [f"P{i}"] otherwise -- with the agent and the
    model the conversion gave; an obstacle that is not supported is under no
    name; and the dictionaries hold nothing else. *)
Theorem replica_entries (name : string) (sim_param : option SimParameters)
    (ego : option string) (ctx : SimContext Scenario Model Agent SimParameters)
    (logs : list LogLine) :
  get_scenario_commonroad_replica name sim_param ego = Return (ctx, logs) ->
  (forall i o, dynamic_obstacles (scenario ctx) !! i = Some o ->
     match conversion ego (lanelet_network (scenario ctx)) i o with
     | Return (model, agent) =>
         players ctx !! stored_name ego i = Some agent /\
         models ctx !! stored_name ego i = Some model
     | Throw e =>
         (exists msg, e = NotSupportedConversion (Text msg)) /\
         players ctx !! stored_name ego i = None /\
         models ctx !! stored_name ego i = None
     end) /\
  (forall k, is_Some (players ctx !! k) \/ is_Some (models ctx !! k) ->
     exists i, i < length (dynamic_obstacles (scenario ctx)) /\ k = stored_name ego i).
Proof.
  intros Hrun.
  destruct (replica_inv _ _ _ _ _ Hrun) as (problems & warnings & _ & Hload & _).
  destruct (load_from_spec _ _ _ _ _ _ Hload) as (Hin & Hout & _).
  cbn [fst snd] in Hin, Hout. split.
  - intros i o Hi. specialize (Hin i o Hi). cbn in Hin.
    destruct (conversion ego _ i o) as [[model agent]|e]; [exact Hin|].
    destruct Hin as (Hmsg & Hp & Hm). rewrite lookup_empty in Hp. rewrite lookup_empty in Hm.
    auto.
  - intros k Hk.
    set (n := length (dynamic_obstacles (scenario ctx))) in *.
    destruct (decide (Exists (fun i => k = stored_name ego i) (seq 0 n))) as [Hex|Hno].
    + apply Exists_exists in Hex. destruct Hex as (i & Hi & Heq).
      apply list_elem_of_In, in_seq in Hi. exists i. split; [lia|exact Heq].
    + exfalso. destruct (Hout k) as [Hp Hm].
      { intros j Hj Heq. apply Hno. apply Exists_exists. exists j. split; [|exact Heq].
        apply list_elem_of_In, in_seq. lia. }
      rewrite lookup_empty in Hp. rewrite lookup_empty in Hm. rewrite Hp, Hm in Hk.
      destruct Hk as [[? H]|[? H]]; discriminate.
Qed.

(** X13: when the factory returns, [players] and [models] have the same
    keys, as many as conversions returned; every other obstacle is one
    warning in the log, so keys and warnings together number the obstacles;
    and the last line logged reports the number of players. *)
Theorem replica_counts (name : string) (sim_param : option SimParameters)
    (ego : option string) (ctx : SimContext Scenario Model Agent SimParameters)
    (logs : list LogLine) :
  get_scenario_commonroad_replica name sim_param ego = Return (ctx, logs) ->
  dom (players ctx) = dom (models ctx) /\
  size (players ctx)
  = converted_from ego (lanelet_network (scenario ctx)) 0 (dynamic_obstacles (scenario ctx)) /\
  size (players ctx) + length (List.filter is_warn logs)
  = length (dynamic_obstacles (scenario ctx)) /\
  last logs = Some (Info ("Managed to load " +:+ pretty (size (players ctx)))).
Proof.
  intros Hrun.
  destruct (replica_inv _ _ _ _ _ Hrun) as (problems & warnings & _ & Hload & -> & _).
  destruct (load_from_spec _ _ _ _ _ _ Hload) as (_ & _ & Hcount).
  destruct (load_from_size _ _ _ _ _ _ Hload) as (Hdom & Hsize).
  { reflexivity. }
  { cbn. intros k Hk. rewrite lookup_empty in Hk. destruct Hk; discriminate. }
  cbn [fst snd] in *. rewrite map_size_empty in Hsize. cbn in Hcount.
  split; [exact Hdom|]. split; [exact Hsize|]. split.
  - rewrite List.filter_app, length_app. cbn. lia.
  - apply last_snoc.
Qed.


Lemma load_from_returns (ego : option string) (net : Lanelets) (obstacles : list Obstacle) :
  forall (i0 : nat) (acc : Loaded),
    (exists out, load_from ego net i0 obstacles acc = Return out) <->
    (forall j o, obstacles !! j = Some o -> passable (conversion ego net (i0 + j) o) = true).
Proof.
  induction obstacles as [|o rest IH]; intros i0 acc.
  - split; [intros _ j o' Hj; rewrite lookup_nil in Hj; discriminate|]. cbn. eauto.
  - cbn [load_from]. rewrite load_one_unfold. split.
    + intros (out & Hrun) [|j] o' Hj.
      * cbn in Hj. injection Hj as <-. rewrite Nat.add_0_r.
        destruct (conversion ego net i0 o) as [[model agent]|e]; [reflexivity|].
        destruct e as [| | | |[| |msg]|]; try discriminate. reflexivity.
      * cbn in Hj. replace (i0 + S j) with (S i0 + j) by lia.
        destruct (conversion ego net i0 o) as [[model agent]|e].
        -- cbn [bindR] in Hrun. eapply (proj1 (IH _ _)); eauto.
        -- destruct e as [| | | |[| |msg]|]; try discriminate. cbn [bindR] in Hrun.
           eapply (proj1 (IH _ _)); eauto.
    + intros Hall.
      assert (Hrest : forall j o', rest !! j = Some o' ->
                        passable (conversion ego net (S i0 + j) o') = true).
      { intros j o' Hj. replace (S i0 + j) with (i0 + S j) by lia. apply Hall. exact Hj. }
      pose proof (Hall 0 o eq_refl) as Hhead. rewrite Nat.add_0_r in Hhead.
      destruct (conversion ego net i0 o) as [[model agent]|e].
      * cbn [bindR]. apply (proj2 (IH _ _)). exact Hrest.
      * destruct e as [| | | |[| |msg]|]; try discriminate.
        cbn [bindR]. apply (proj2 (IH _ _)). exact Hrest.
Qed.

(** The loop raises at the first conversion it does not get past. *)
Lemma load_from_raises (ego : option string) (net : Lanelets) (obstacles : list Obstacle) :
  forall (i0 : nat) (acc : Loaded) (i : nat) (o : Obstacle) (e : Exn),
    obstacles !! i = Some o ->
    (forall j o', j < i -> obstacles !! j = Some o' ->
                  passable (conversion ego net (i0 + j) o') = true) ->
    conversion ego net (i0 + i) o = Throw e ->
    passable (conversion ego net (i0 + i) o) = false ->
    load_from ego net i0 obstacles acc = Throw (raised_for e).
Proof.
  induction obstacles as [|o0 rest IH]; intros i0 acc i o e Hi Hbefore Hc Hp.
  - rewrite lookup_nil in Hi. discriminate.
  - cbn [load_from]. rewrite load_one_unfold. destruct i as [|i].
    + cbn in Hi. injection Hi as ->. rewrite Nat.add_0_r in Hc, Hp.
      rewrite Hc in Hp. rewrite Hc.
      destruct e as [| | | |[| |msg]|]; try reflexivity. discriminate.
    + cbn in Hi.
      pose proof (Hbefore 0 o0 ltac:(lia) eq_refl) as Hhead. rewrite Nat.add_0_r in Hhead.
      assert (Hrest : forall j o', j < i -> rest !! j = Some o' ->
                        passable (conversion ego net (S i0 + j) o') = true).
      { intros j o' Hj Hl. replace (S i0 + j) with (i0 + S j) by lia.
        apply Hbefore; [lia|exact Hl]. }
      replace (i0 + S i) with (S i0 + i) in Hc, Hp by lia.
      destruct (conversion ego net i0 o0) as [[model agent]|e0].
      * cbn [bindR]. eapply IH; eauto.
      * destruct e0 as [| | | |[| |msg]|]; try discriminate.
        cbn [bindR]. eapply IH; eauto.
Qed.

(** X15: the factory returns exactly when the loader returns and every
    conversion returns or raises a [NotSupportedConversion] whose first
    argument is a string.  What the loader raises, the factory raises.  At
    the first conversion that raises anything else the factory raises too:
    the exception of the conversion, or, for a [NotSupportedConversion]
    without a string as first argument, the [IndexError] or [TypeError] of
    the handler that reads [e.args[0]]. *)
Theorem replica_returns (name : string) (sim_param : option SimParameters)
    (ego : option string) :
  ((exists ctx logs, get_scenario_commonroad_replica name sim_param ego = Return (ctx, logs))
   <->
   exists sc problems,
     load_commonroad_scenario name = Return (sc, problems) /\
     forall i o, dynamic_obstacles sc !! i = Some o ->
                 passable (conversion ego (lanelet_network sc) i o) = true) /\
  (forall e, load_commonroad_scenario name = Throw e ->
             get_scenario_commonroad_replica name sim_param ego = Throw e) /\
  (forall sc problems i o e,
     load_commonroad_scenario name = Return (sc, problems) ->
     dynamic_obstacles sc !! i = Some o ->
     (forall j o', j < i -> dynamic_obstacles sc !! j = Some o' ->
                   passable (conversion ego (lanelet_network sc) j o') = true) ->
     conversion ego (lanelet_network sc) i o = Throw e ->
     passable (conversion ego (lanelet_network sc) i o) = false ->
     get_scenario_commonroad_replica name sim_param ego = Throw (raised_for e)).
Proof.
  unfold get_scenario_commonroad_replica.
  destruct (load_commonroad_scenario name) as [[sc problems]|e0]; cbn [bindR fst].
  - split; [|split; [discriminate|]].
    2:{ intros sc' problems' i o e Heq Hi Hbefore Hc Hp. injection Heq as <- <-.
        rewrite (load_from_raises ego (lanelet_network sc) (dynamic_obstacles sc)
                                  0 (∅, ∅, []) i o e Hi Hbefore Hc Hp).
        reflexivity. }
    split.
    + intros (ctx & logs & Hrun). exists sc, problems. split; [reflexivity|].
      apply (proj1 (load_from_returns ego (lanelet_network sc) (dynamic_obstacles sc) 0
                                      (∅, ∅, []))).
      destruct (load_from _ _ _ _ _) as [out|]; [eauto|discriminate].
    + intros (sc' & problems' & Heq & Hall). injection Heq as <- <-.
      apply (proj2 (load_from_returns ego (lanelet_network sc) (dynamic_obstacles sc) 0
                                      (∅, ∅, []))) in Hall.
      destruct Hall as (out & ->). cbn. eauto.
  - split; [|split].
    + split; [intros (? & ? & H); discriminate|intros (? & ? & H & _); discriminate].
    + intros e H. injection H as <-. reflexivity.
    + intros sc problems i o e H. discriminate.
Qed.

End WithCommonRoad.

End FactoryFacts.

Module FactoryDemoFacts.
Import Factory FactoryDemo.

Lemma three_loaded : exists ctx logs, three = Return (ctx, logs).
Proof. eexists _, _. vm_compute. reflexivity. Qed.

(** The three obstacles give two players, the second of them the ego, and one
    warning. *)
Example three_players :
  match three with
  | Return (ctx, logs) =>
      players ctx !! "P0" = Some (1, None) /\
      players ctx !! "P1" = None /\
      players ctx !! "Ego" = Some (2, Some "firebrick") /\
      players ctx !! "P2" = None /\
      models ctx !! "Ego" = Some 2 /\
      logs = [Warn "Unable to convert commonroad dynamic obstacle due to pedestrian skipping...";
              Info "Managed to load 2"]
  | Throw _ => False
  end.
Proof. vm_compute. repeat split. Qed.

(** With the converter that gives its exception no argument, the handler
    raises on the second obstacle. *)
Example three_bare :
  get_scenario_commonroad_replica (CR:=commonroad_bare) "three" None (Some "P2")
  = Throw (Builtin IndexError).
Proof. vm_compute. reflexivity. Qed.

Lemma replica_entries_witness :
  exists ctx logs,
    three = Return (ctx, logs) /\
    forall k, is_Some (players ctx !! k) \/ is_Some (models ctx !! k) ->
              exists i, i < length (dynamic_obstacles (CommonRoad:=commonroad) (scenario ctx))
                        /\ k = stored_name (Some "P2") i.
Proof.
  destruct three_loaded as (ctx & logs & Hrun). exists ctx, logs. split; [exact Hrun|].
  unfold three in Hrun.
  exact (proj2 (FactoryFacts.replica_entries (CR:=commonroad) _ _ _ _ _ Hrun)).
Defined.

Lemma replica_counts_witness :
  exists ctx logs,
    three = Return (ctx, logs) /\
    dom (players ctx) = dom (models ctx) /\
    size (players ctx) + length (List.filter is_warn logs)
    = length (dynamic_obstacles (CommonRoad:=commonroad) (scenario ctx)).
Proof.
  destruct three_loaded as (ctx & logs & Hrun). exists ctx, logs. split; [exact Hrun|].
  unfold three in Hrun.
  destruct (FactoryFacts.replica_counts (CR:=commonroad) _ _ _ _ _ Hrun)
    as (Hdom & _ & Hsum & _).
  split; assumption.
Defined.


End FactoryDemoFacts.

(** ** Runs of the planner *)

Section PlannerRunFacts.

Context {Rng Scenario Mode : Type} {Ext : External Rng Scenario Mode}.

Abbreviation Self := (Planner Rng Scenario).

Lemma py_int_small (q : Q) : (0 <= q)%Q -> (q < 1)%Q -> py_int q = 0%Z.
Proof.
  intros H0 H1. unfold py_int. apply Z.quot_small.
  unfold Qle in H0. unfold Qlt in H1.
  change (Qnum 0) with 0%Z in H0. change (Z.pos (Qden 0)) with 1%Z in H0.
  change (Qnum 1) with 1%Z in H1. change (Z.pos (Qden 1)) with 1%Z in H1. lia.
Qed.

Lemma py_getitem_IndexError {A : Type} (l : list A) (i : Z) (e : PyError) :
  py_getitem l i = Raise e -> e = IndexError.
Proof.
  unfold py_getitem. destruct (_ <? 0)%Z; [intros H; congruence|].
  destruct (l !! _); [discriminate|]. intros H. congruence.
Qed.

Lemma py_getitem_last_is {A : Type} (l : list A) (a : A) :
  py_getitem l (-1)%Z = Ok a -> last l = Some a.
Proof.
  unfold py_getitem. cbn [Z.ltb Z.compare].
  destruct (Z.of_nat (length l) + -1 <? 0)%Z eqn:Hneg; [discriminate|].
  apply Z.ltb_ge in Hneg.
  destruct (l !! Z.to_nat (Z.of_nat (length l) + -1)) as [b|] eqn:Hl; [|discriminate].
  intros H. injection H as <-. rewrite last_lookup.
  replace (Init.Nat.pred (length l)) with (Z.to_nat (Z.of_nat (length l) + -1)) by lia.
  exact Hl.
Qed.

Lemma py_getitem_first {A : Type} (l : list A) :
  py_getitem l 0%Z = match head l with Some a => Ok a | None => Raise IndexError end.
Proof. destruct l; reflexivity. Qed.

(** X16: [constrained_steer] returns [None] exactly when the Dubins path to
    the target has at most one sample, and it then divides nothing; it raises
    [ZeroDivisionError] exactly when that path has more samples and
    [path_resolution] is zero; without a node to steer from it raises
    [AttributeError]. *)
Theorem constrained_steer_outcomes (self : Self) (from to_node : AnyNode.t) (e : Q) :
  let first := dubins_between self (AnyNode.pose from) (AnyNode.pose to_node) in
  (constrained_steer self (Some from) to_node e = Ok None <->
   length (fst (fst first)) <= 1) /\
  (constrained_steer self (Some from) to_node e = Raise ZeroDivisionError <->
   1 < length (fst (fst first)) /\ (path_resolution self == 0)%Q) /\
  constrained_steer self None to_node e = Raise AttributeError.
Proof.
  intros first. unfold constrained_steer. fold first.
  destruct (length (fst (fst first)) <=? 1) eqn:Hlen.
  - apply Nat.leb_le in Hlen.
    split; [tauto|]. split; [|reflexivity].
    split; [discriminate|]. intros [H _]. lia.
  - apply Nat.leb_gt in Hlen. unfold py_div.
    destruct (Qeq_bool (path_resolution self) 0) eqn:Hres.
    + apply Qeq_bool_iff in Hres. cbn.
      split; [split; [discriminate|lia]|]. split; [tauto|reflexivity].
    + apply Qeq_bool_neq in Hres. cbn [bindO].
      assert (Hnot : forall r,
                 (final <- truncate self (AnyNode.pose from) first
                                     (py_int (3 / path_resolution self)) ;;
                  last <- py_getitem (fst (fst final)) (-1)%Z ;;
                  Ok (Some (AnyNode.set_parent
                              (Some (AnyNode.id from))
                              (AnyNode.set_cost
                                 (AnyNode.cost
                                    (AnyNode.set_path
                                       (fst (fst final))
                                       (AnyNode_init
                                          (SE2Transform.mk
                                             (fst (SE2Transform.p last), snd (SE2Transform.p last))
                                             (SE2Transform.theta last)) "new"))
                                  + segment_length (snd final))
                                 (AnyNode.set_path
                                    (fst (fst final))
                                    (AnyNode_init
                                       (SE2Transform.mk
                                          (fst (SE2Transform.p last), snd (SE2Transform.p last))
                                          (SE2Transform.theta last)) "new")))))) = r ->
                 r <> Ok None /\ r <> Raise ZeroDivisionError).
      { intros r <-. unfold truncate.
        destruct (_ <? _)%Z.
        - destruct (py_getitem (fst (fst first)) _) as [target|err] eqn:Ht; cbn [bindO].
          + destruct (py_getitem _ (-1)%Z) as [last|err] eqn:Hl; cbn [bindO].
            * split; discriminate.
            * apply py_getitem_IndexError in Hl. subst. split; discriminate.
          + apply py_getitem_IndexError in Ht. subst. split; discriminate.
        - cbn [bindO]. destruct (py_getitem _ (-1)%Z) as [last|err] eqn:Hl; cbn [bindO].
          + split; discriminate.
          + apply py_getitem_IndexError in Hl. subst. split; discriminate. }
      destruct (Hnot _ eq_refl) as [H1 H2].
      split; [split; [intros H; contradiction|lia]|].
      split; [|reflexivity].
      split; [intros H; contradiction|]. intros [_ H]. contradiction.
Qed.

(** X17: the node [constrained_steer] returns has the id ['new'], the node
    steered from as parent, a non-empty path, and the last pose of that path
    as its pose. *)
Theorem constrained_steer_node (self : Self) (from to_node node : AnyNode.t) (e : Q) :
  constrained_steer self (Some from) to_node e = Ok (Some node) ->
  AnyNode.id node = "new" /\
  AnyNode.parent node = Some (AnyNode.id from) /\
  last (AnyNode.path node) = Some (AnyNode.pose node).
Proof.
  intros Hs.
  destruct (constrained_steer_inv _ _ _ _ _ Hs) as (q & final & lastp & _ & _ & Hl & ->).
  cbn. repeat split. apply py_getitem_last_is in Hl. rewrite Hl.
  destruct lastp. reflexivity.
Qed.

(** X18: with a [path_resolution] above 3 the cut index
    [int(3 / path_resolution)] is 0: the path a new node stores is the Dubins
    path from the node steered from to the first sample of the path towards
    the target. *)
Theorem coarse_resolution_steers_to_first_sample
    (self : Self) (from to_node node : AnyNode.t) (e : Q) :
  (3 < path_resolution self)%Q ->
  constrained_steer self (Some from) to_node e = Ok (Some node) ->
  py_int (3 / path_resolution self) = 0%Z /\
  exists start,
    head (fst (fst (dubins_between self (AnyNode.pose from) (AnyNode.pose to_node))))
    = Some start /\
    AnyNode.path node = fst (fst (dubins_between self (AnyNode.pose from) start)).
Proof.
  intros Hres Hs.
  assert (Hpos : (0 < path_resolution self)%Q).
  { eapply Qlt_trans; [|exact Hres]. reflexivity. }
  assert (Hidx : py_int (3 / path_resolution self) = 0%Z).
  { apply py_int_small.
    - unfold Qdiv. apply Qmult_le_0_compat; [discriminate|].
      apply Qlt_le_weak, Qinv_lt_0_compat, Hpos.
    - apply Qlt_shift_div_r; [exact Hpos|]. rewrite Qmult_1_l. exact Hres. }
  split; [exact Hidx|].
  pose proof Hs as Hs'. unfold constrained_steer in Hs'.
  destruct (length _ <=? 1) eqn:Hlen; [discriminate|]. apply Nat.leb_gt in Hlen.
  clear Hs'.
  destruct (constrained_steer_inv _ _ _ _ _ Hs) as (q & final & lastp & Hq & Hf & _ & ->).
  unfold py_div in Hq. destruct (Qeq_bool _ _); [discriminate|]. injection Hq as <-.
  rewrite Hidx in Hf. unfold truncate in Hf.
  destruct (0 <? _)%Z eqn:Hcut; [|apply Z.ltb_ge in Hcut; lia].
  rewrite py_getitem_first in Hf.
  destruct (head _) as [start|]; [|discriminate].
  cbn in Hf. injection Hf as <-. exists start. split; reflexivity.
Qed.

(** *** What one round does to the planner *)

Lemma closer_In (q : SE2Transform.t) (rest : list AnyNode.t) :
  forall n0, In (fold_left (Tree.closer q) rest n0) (n0 :: rest).
Proof.
  induction rest as [|n rest IH]; intros n0; cbn.
  - left. reflexivity.
  - assert (Hc : Tree.closer q n0 n = n \/ Tree.closer q n0 n = n0)
      by (unfold Tree.closer; destruct (Qlt_bool _ _); auto).
    destruct Hc as [Hc|Hc]; rewrite Hc.
    + right. apply IH.
    + destruct (IH n0) as [H|H]; [left; exact H|right; right; exact H].
Qed.

Lemma nearest_In (tr : Tree.t) (q : SE2Transform.t) (n : AnyNode.t) :
  Tree.nearest tr q = Some n -> In n (Tree.values tr).
Proof.
  unfold Tree.nearest. destruct (Tree.values tr) as [|n0 rest]; [discriminate|].
  intros H. injection H as <-. apply closer_In.
Qed.

Lemma same_settings_refl (s : Self) : same_settings s s.
Proof. repeat split. Qed.

Lemma same_settings_trans (s1 s2 s3 : Self) :
  same_settings s1 s2 -> same_settings s2 s3 -> same_settings s1 s3.
Proof.
  unfold same_settings. intros (a1 & a2 & a3 & a4 & a5 & a6 & a7) (b1 & b2 & b3 & b4 & b5 & b6 & b7).
  repeat split; congruence.
Qed.

(** A round that returns has drawn one sample and left the stored path and the
    settings alone; it has either left tree and counter alone, or appended
    one node -- the candidate, which the oracle let pass -- under the next id,
    which was not in use, as a child of a node of the tree. *)
Lemma grow_outcome (self self' : Self) (g : option AnyNode.t * bool) :
  grow self = (Ok g, self') ->
  same_settings self self' /\ path self' = path self /\ rng self' = draw (rng self) /\
  ((snd g = false /\ tree self' = tree self /\ number_nodes self' = number_nodes self) \/
   (snd g = true /\
    exists n from,
      fst g = Some n /\
      tree self' = tree self ++ [(pretty (number_nodes self + 1)%Z, n)] /\
      AnyNode.id n = pretty (number_nodes self + 1)%Z /\
      number_nodes self' = (number_nodes self + 1)%Z /\
      collision (scenario self) (AnyNode.set_id "new" n) = false /\
      ~ In (pretty (number_nodes self + 1)%Z) (Tree.keys (tree self)) /\
      In from (Tree.values (tree self)) /\
      AnyNode.parent n = Some (AnyNode.id from))).
Proof.
  rewrite grow_unfold. cbn zeta.
  destruct (candidate self) as [[n|]|e] eqn:Hc; [| |discriminate].
  - destruct (collision (scenario self) n) eqn:Hcol.
    + intros H. injection H as <- <-. repeat split. left. repeat split.
    + destruct (Tree.insert (labelled self n) (tree self)) as [tr|e] eqn:Hins;
        [|discriminate].
      intros H. injection H as <- <-. repeat split. right. split; [reflexivity|].
      unfold candidate in Hc.
      destruct (get_nearest_node_from_tree (tree self) (fst (get_random_node (rng self))))
        as [from|] eqn:Hnear; [|discriminate].
      destruct (constrained_steer_inv _ _ _ _ _ Hc) as (q & final & lastp & _ & _ & _ & Hn).
      exists (labelled self n), from.
      unfold Tree.insert in Hins.
      destruct (existsb _ _) eqn:Hex; [discriminate|]. injection Hins as <-.
      split; [reflexivity|]. split; [reflexivity|]. split; [reflexivity|].
      split; [reflexivity|]. split.
      { unfold labelled. rewrite Hnear. subst n. cbn. exact Hcol. }
      split.
      { intros Hin. rewrite labelled_id in Hex.
        assert (Ht : existsb (String.eqb (pretty (number_nodes self + 1)%Z))
                             (Tree.keys (tree self)) = true).
        { apply existsb_exists. eexists. split; [exact Hin|]. apply String.eqb_refl. }
        congruence. }
      split.
      { apply nearest_In in Hnear. exact Hnear. }
      unfold labelled. rewrite Hnear. reflexivity.
  - intros H. injection H as <- <-. repeat split. left. repeat split.
Qed.

Lemma ids_after_cons (n : Z) (k : nat) :
  ids_after n (S k) = pretty (n + 1)%Z :: ids_after (n + 1) k.
Proof.
  unfold ids_after. cbn [seq map]. f_equal.
  rewrite <- seq_shift, map_map. apply map_ext. intros j. f_equal. lia.
Qed.

Lemma extends_by_refl (self : Self) : extends_by self self [] 0.
Proof.
  unfold extends_by. rewrite app_nil_r. cbn.
  split; [reflexivity|]. split; [reflexivity|]. split; [lia|].
  split; [lia|]. split; [reflexivity|]. split; [apply same_settings_refl|constructor].
Qed.

(** A round, then a stretch that starts from the tree, counter, sampler and
    settings it left. *)
Lemma extends_by_round (self s1 s2 self' : Self) (g : option AnyNode.t * bool)
    (added : list (string * AnyNode.t)) (k : nat) :
  grow self = (Ok g, s1) ->
  tree s2 = tree s1 -> number_nodes s2 = number_nodes s1 -> rng s2 = rng s1 ->
  same_settings s1 s2 ->
  extends_by s2 self' added k ->
  exists added', extends_by self self' added' (S k).
Proof.
  intros Hg Ht Hn Hr Hs12 (Etree & Eids & Enum & Elen & Erng & Eset & Echk).
  destruct (grow_outcome _ _ _ Hg) as (Hset & _ & Hrng & Hcase).
  assert (Hsc : scenario s2 = scenario self).
  { destruct Hset as (_ & _ & _ & _ & _ & _ & H1).
    destruct Hs12 as (_ & _ & _ & _ & _ & _ & H2). congruence. }
  assert (Hset' : same_settings self self').
  { eapply same_settings_trans; [exact Hset|].
    eapply same_settings_trans; [exact Hs12|exact Eset]. }
  assert (Hrng' : rng self' = Nat.iter (S k) draw (rng self)).
  { rewrite Nat.iter_succ_r. rewrite Erng, Hr, Hrng. reflexivity. }
  rewrite Hsc in Echk.
  destruct Hcase as [(_ & Htree & Hnum)|(_ & n & from & _ & Htree & Hid & Hnum & Hcol & _)].
  - exists added. unfold extends_by.
    rewrite Etree, Ht, Htree. rewrite Eids, Enum, Hn, Hnum.
    split; [reflexivity|]. split; [reflexivity|]. split; [reflexivity|].
    split; [lia|]. split; [exact Hrng'|]. split; [exact Hset'|exact Echk].
  - exists ((pretty (number_nodes self + 1)%Z, n) :: added). unfold extends_by.
    rewrite Etree, Ht, Htree, <- app_assoc. cbn [app length map fst].
    rewrite ids_after_cons, Eids, Enum, Hn, Hnum.
    split; [reflexivity|]. split; [reflexivity|]. split; [lia|].
    split; [lia|]. split; [exact Hrng'|]. split; [exact Hset'|].
    constructor; [|exact Echk]. cbn. split; assumption.
Qed.

Lemma probe_outcome (g : option AnyNode.t * bool) (s s' : Self) (it : Iteration) :
  probe g s = (Ok it, s') ->
  tree s' = tree s /\ number_nodes s' = number_nodes s /\ rng s' = rng s /\
  same_settings s s' /\
  match returned it with
  | Some p =>
      (exists P, path s' = Some P /\ Path.path P = p) /\ search_until_max_iter s = false
  | None => s' = s
  end.
Proof.
  rewrite probe_unfold.
  destruct (negb (search_until_max_iter s) && truthy (fst g)) eqn:Hcond.
  - destruct (search_best_goal_node s) as [last|].
    + intros H. injection H as <- <-. cbn. repeat split.
      * eauto.
      * apply andb_true_iff in Hcond. destruct Hcond as [Hf _].
        apply negb_true_iff in Hf. exact Hf.
    + intros H. injection H as <- <-. cbn. repeat split.
  - intros H. injection H as <- <-. cbn. repeat split.
Qed.

(** The loop of [planning]. *)
Lemma planning_loop_trace (n : nat) :
  forall (self self' : Self) (r : option (list SE2Transform.t)),
    planning_loop n self = (Ok r, self') ->
    exists added k,
      k <= n /\ extends_by self self' added k /\
      match r with
      | None => k = n /\ path self' = path self
      | Some p =>
          (exists P, path self' = Some P /\ Path.path P = p) /\
          search_until_max_iter self = false
      end.
Proof.
  induction n as [|n IH]; intros self self' r.
  - cbn. intros H. injection H as <- <-. exists [], 0.
    split; [lia|]. split; [apply extends_by_refl|]. split; reflexivity.
  - cbn [planning_loop]. unfold bindM at 1, planning_iteration, bindM at 1.
    destruct (grow self) as [[g|e] s1] eqn:Hg; [|discriminate].
    destruct (probe g s1) as [[it|e] s2] eqn:Hp; [|discriminate].
    destruct (probe_outcome _ _ _ _ Hp) as (Ht & Hn & Hr & Hs & Hret).
    destruct (grow_outcome _ _ _ Hg) as (Hset & Hpath & _ & _).
    destruct (returned it) as [p|].
    + intros H. injection H as <- <-.
      destruct (extends_by_round self s1 s2 s2 g [] 0 Hg Ht Hn Hr Hs (extends_by_refl s2))
        as (added & Hext).
      exists added, 1. split; [lia|]. split; [exact Hext|].
      destruct Hret as [HP Hflag]. split; [exact HP|].
      destruct Hset as (_ & _ & _ & Hf & _). congruence.
    + subst s2. intros H. apply IH in H.
      destruct H as (added & k & Hk & Hext & Hres).
      destruct (extends_by_round self s1 s1 self' g added k Hg eq_refl eq_refl eq_refl
                                 (same_settings_refl s1) Hext) as (added' & Hext').
      exists added', (S k). split; [lia|]. split; [exact Hext'|].
      destruct r as [p|].
      * destruct Hres as [HP Hflag]. split; [exact HP|].
        destruct Hset as (_ & _ & _ & Hf & _). congruence.
      * destruct Hres as [-> Hpth]. split; [reflexivity|congruence].
Qed.

Lemma planning_trace (self self' : Self) (r : option (list SE2Transform.t)) :
  planning self = (Ok r, self') ->
  exists added k,
    k <= Z.to_nat (max_iter self) /\ extends_by self self' added k /\
    (search_until_max_iter self = true \/ r = None -> k = Z.to_nat (max_iter self)) /\
    match r with
    | None => path self' = path self
    | Some p => exists P, path self' = Some P /\ Path.path P = p
    end.
Proof.
  unfold planning, bindM at 1, get, bindM at 1.
  destruct (planning_loop (Z.to_nat (max_iter self)) self) as [[r0|e] s1] eqn:Hloop;
    [|discriminate].
  destruct (planning_loop_trace _ _ _ _ Hloop) as (added & k & Hk & Hext & Hres).
  destruct r0 as [p|].
  - intros H. injection H as <- <-. exists added, k.
    destruct Hres as [HP Hflag].
    split; [exact Hk|]. split; [exact Hext|]. split; [|exact HP].
    intros [Ht|Hn]; [congruence|discriminate].
  - destruct Hres as [-> Hpath].
    unfold final_probe, bindM, get.
    destruct (search_best_goal_node s1) as [last|].
    + intros H. injection H as <- <-. exists added, (Z.to_nat (max_iter self)).
      split; [lia|]. split.
      * destruct Hext as (E1 & E2 & E3 & E4 & E5 & E6 & E7).
        repeat split; try assumption; apply E6.
      * split; [reflexivity|]. cbn. eauto.
    + intros H. injection H as <- <-. exists added, (Z.to_nat (max_iter self)).
      split; [lia|]. split; [exact Hext|]. split; [reflexivity|exact Hpath].
Qed.

Lemma expand_loop_trace (n : nat) :
  forall (self self' : Self),
    expand_loop n self = (Ok tt, self') ->
    exists added, extends_by self self' added n /\ path self' = path self.
Proof.
  induction n as [|n IH]; intros self self'.
  - cbn. intros H. injection H as <-. exists []. split; [apply extends_by_refl|reflexivity].
  - cbn [expand_loop]. unfold bindM at 1.
    destruct (grow self) as [[g|e] s1] eqn:Hg; [|discriminate].
    intros H. apply IH in H. destruct H as (added & Hext & Hpath).
    destruct (grow_outcome _ _ _ Hg) as (_ & Hp1 & _ & _).
    destruct (extends_by_round self s1 s1 self' g added n Hg eq_refl eq_refl eq_refl
                               (same_settings_refl s1) Hext) as (added' & Hext').
    exists added'. split; [exact Hext'|congruence].
Qed.

(** X19: when [planning] returns, the tree is the tree before followed by
    the nodes added, at most [max_iter] of them; they are stored under the
    ids [str(number_nodes + 1)], [str(number_nodes + 2)], ..., each under its
    own id, the counter has advanced by their number, and the settings are
    unchanged. *)
Theorem planning_appends (self self' : Self) (r : option (list SE2Transform.t)) :
  planning self = (Ok r, self') ->
  exists added,
    tree self' = tree self ++ added /\
    length added <= Z.to_nat (max_iter self) /\
    map fst added = ids_after (number_nodes self) (length added) /\
    Forall (fun kv => AnyNode.id (snd kv) = fst kv) added /\
    number_nodes self' = (number_nodes self + Z.of_nat (length added))%Z /\
    same_settings self self'.
Proof.
  intros H. destruct (planning_trace _ _ _ H) as (added & k & Hk & Hext & _).
  destruct Hext as (E1 & E2 & E3 & E4 & E5 & E6 & E7).
  exists added. repeat split; try assumption; try lia; try apply E6.
  eapply Forall_impl; [exact E7|]. intros kv [Hid _]. exact Hid.
Qed.

(** X20: no node enters the tree unchecked: every node that is in the tree
    after [planning] or [expand_tree] returned was in it before, or was
    accepted by the collision oracle, on the scenario of the call, as the
    candidate (id ['new']) it was then. *)
Theorem only_checked_nodes_enter (self self' : Self) :
  (forall r, planning self = (Ok r, self') ->
     forall key n, In (key, n) (tree self') ->
       In (key, n) (tree self) \/
       collision (scenario self) (AnyNode.set_id "new" n) = false) /\
  (expand_tree self = (Ok tt, self') ->
     forall key n, In (key, n) (tree self') ->
       In (key, n) (tree self) \/
       collision (scenario self) (AnyNode.set_id "new" n) = false).
Proof.
  assert (Hgen : forall added k, extends_by self self' added k ->
            forall key n, In (key, n) (tree self') ->
              In (key, n) (tree self) \/
              collision (scenario self) (AnyNode.set_id "new" n) = false).
  { intros added k (E1 & _ & _ & _ & _ & _ & E7) key n Hin.
    rewrite E1 in Hin. apply in_app_or in Hin. destruct Hin as [Hin|Hin]; [left; exact Hin|].
    right. rewrite List.Forall_forall in E7. exact (proj2 (E7 _ Hin)). }
  split.
  - intros r H. destruct (planning_trace _ _ _ H) as (added & k & _ & Hext & _).
    exact (Hgen _ _ Hext).
  - unfold expand_tree, bindM at 1, get. intros H.
    destruct (expand_loop_trace _ _ _ H) as (added & Hext & _).
    exact (Hgen _ _ Hext).
Qed.

(** X21: a path that [planning] returns is the path it has stored in
    [self.path]; when it returns [None] it leaves [self.path] as it was, so
    a path stored by an earlier call stays. *)
Theorem planning_stored_path (self self' : Self) (r : option (list SE2Transform.t)) :
  planning self = (Ok r, self') ->
  match r with
  | Some p => exists P, path self' = Some P /\ Path.path P = p
  | None => path self' = path self
  end.
Proof.
  intros H. destruct (planning_trace _ _ _ H) as (added & k & _ & _ & _ & Hres).
  exact Hres.
Qed.

(** X22: when [planning] returns, the sampler has been drawn once per
    iteration made, at most [max_iter] times, and exactly [max_iter] times
    when [search_until_max_iter] is set or no path is returned -- whatever
    the oracle rejected on the way. *)
Theorem planning_draws (self self' : Self) (r : option (list SE2Transform.t)) :
  planning self = (Ok r, self') ->
  exists k,
    k <= Z.to_nat (max_iter self) /\
    rng self' = Nat.iter k draw (rng self) /\
    (search_until_max_iter self = true \/ r = None -> k = Z.to_nat (max_iter self)).
Proof.
  intros H. destruct (planning_trace _ _ _ H) as (added & k & Hk & Hext & Hfull & _).
  exists k. split; [exact Hk|]. split; [|exact Hfull]. apply Hext.
Qed.

(** X23: when [expand_tree] returns it has drawn the sampler [expand_iter]
    times and appended at most as many nodes under the next ids, the counter
    following; it has not touched the stored path or the settings. *)
Theorem expand_tree_appends (self self' : Self) :
  expand_tree self = (Ok tt, self') ->
  path self' = path self /\
  rng self' = Nat.iter (Z.to_nat (expand_iter self)) draw (rng self) /\
  exists added,
    tree self' = tree self ++ added /\
    length added <= Z.to_nat (expand_iter self) /\
    map fst added = ids_after (number_nodes self) (length added) /\
    number_nodes self' = (number_nodes self + Z.of_nat (length added))%Z /\
    same_settings self self'.
Proof.
  unfold expand_tree, bindM at 1, get. intros H.
  destruct (expand_loop_trace _ _ _ H) as (added & Hext & Hpath).
  destruct Hext as (E1 & E2 & E3 & E4 & E5 & E6 & E7).
  split; [exact Hpath|]. split; [exact E5|].
  exists added. repeat split; try assumption; apply E6.
Qed.

(** X24: with [max_iter <= 0] [planning] makes no iteration: it draws no
    sample, leaves the tree alone and answers from the goal probe of the
    tree as it is, without raising, even on an empty tree.  With
    [expand_iter <= 0] [expand_tree] changes nothing. *)
Theorem no_iterations (self : Self) :
  ((max_iter self <= 0)%Z ->
   planning self =
   match search_best_goal_node self with
   | Some last =>
       (Ok (Some (Path.path (find_best_path (tree self) last))),
        set_path (Some (find_best_path (tree self) last)) self)
   | None => (Ok None, self)
   end) /\
  ((expand_iter self <= 0)%Z -> expand_tree self = (Ok tt, self)).
Proof.
  split; intros Hle.
  - unfold planning, bindM at 1, get, bindM at 1.
    replace (Z.to_nat (max_iter self)) with 0 by lia. cbn [planning_loop].
    unfold ret, final_probe, bindM, get.
    destruct (search_best_goal_node self); reflexivity.
  - unfold expand_tree, bindM, get.
    replace (Z.to_nat (expand_iter self)) with 0 by lia. reflexivity.
Qed.

(** *** Integrity of the tree *)

Lemma grow_keeps_sound (self self' : Self) (g : option AnyNode.t * bool) :
  tree_sound (tree self) -> grow self = (Ok g, self') -> tree_sound (tree self').
Proof.
  intros (Hnd & Hid & Hpar) Hg.
  destruct (grow_outcome _ _ _ Hg) as (_ & _ & _ & Hcase).
  destruct Hcase as [(_ & -> & _)|(_ & n & from & _ & -> & Hn & _ & _ & Hfresh & Hfrom & Hparent)].
  - repeat split; assumption.
  - unfold tree_sound, Tree.keys. rewrite map_app. cbn [map fst].
    split; [|split].
    + apply NoDup_app. split; [exact Hnd|]. split.
      * intros k Hk Hk'. apply list_elem_of_In in Hk, Hk'. cbn in Hk'.
        destruct Hk' as [<-|[]]. exact (Hfresh Hk).
      * apply NoDup_singleton.
    + apply Forall_app. split; [exact Hid|]. constructor; [exact Hn|constructor].
    + apply Forall_app. split.
      * eapply Forall_impl; [exact Hpar|]. cbn. intros kv H pid Hp.
        apply in_or_app. left. exact (H pid Hp).
      * constructor; [|constructor]. cbn. intros pid Hp.
        rewrite Hparent in Hp. injection Hp as <-.
        apply in_or_app. left.
        unfold Tree.values in Hfrom. apply in_map_iff in Hfrom.
        destruct Hfrom as (kv & Hsnd & Hin).
        rewrite List.Forall_forall in Hid. rewrite <- Hsnd, (Hid kv Hin).
        apply in_map. exact Hin.
Qed.

Lemma planning_loop_keeps_sound (n : nat) :
  forall (self self' : Self) (r : option (list SE2Transform.t)),
    tree_sound (tree self) -> planning_loop n self = (Ok r, self') ->
    tree_sound (tree self').
Proof.
  induction n as [|n IH]; intros self self' r Hs.
  - cbn. intros H. injection H as <- <-. exact Hs.
  - cbn [planning_loop]. unfold bindM at 1, planning_iteration, bindM at 1.
    destruct (grow self) as [[g|e] s1] eqn:Hg; [|discriminate].
    destruct (probe g s1) as [[it|e] s2] eqn:Hp; [|discriminate].
    destruct (probe_outcome _ _ _ _ Hp) as (Ht & _).
    pose proof (grow_keeps_sound _ _ _ Hs Hg) as Hs1. rewrite <- Ht in Hs1.
    destruct (returned it) as [p|].
    + intros H. injection H as <- <-. exact Hs1.
    + apply IH. exact Hs1.
Qed.

(** X25: [planning] and [expand_tree] keep the tree sound: if its keys are
    distinct, every node is stored under its own id and every parent
    reference is a key of the tree, the same holds of the tree they leave
    when they return. *)
Theorem tree_stays_sound (self self' : Self) :
  tree_sound (tree self) ->
  (forall r, planning self = (Ok r, self') -> tree_sound (tree self')) /\
  (expand_tree self = (Ok tt, self') -> tree_sound (tree self')).
Proof.
  intros Hs. split.
  - intros r. unfold planning, bindM at 1, get, bindM at 1.
    destruct (planning_loop (Z.to_nat (max_iter self)) self) as [[r0|e] s1] eqn:Hloop;
      [|discriminate].
    pose proof (planning_loop_keeps_sound _ _ _ _ Hs Hloop) as Hs1.
    destruct r0 as [p|].
    + intros H. injection H as <- <-. exact Hs1.
    + unfold final_probe, bindM, get.
      destruct (search_best_goal_node s1); intros H; injection H as <- <-; exact Hs1.
  - unfold expand_tree, bindM at 1, get.
    generalize (Z.to_nat (expand_iter self)). intros n. revert self Hs.
    induction n as [|n IH]; intros self Hs.
    + cbn. intros H. injection H as <-. exact Hs.
    + cbn [expand_loop]. unfold bindM at 1.
      destruct (grow self) as [[g|e] s1] eqn:Hg; [|discriminate].
      apply IH. exact (grow_keeps_sound _ _ _ Hs Hg).
Qed.

End PlannerRunFacts.

Module DemoRunFacts.
Import Demo DemoRuns.

Lemma open_road_planned :
  exists r self', planning (Ext:=world) open_road = (Ok r, self').
Proof. eexists _, _. vm_compute. reflexivity. Qed.

Lemma open_road_expanded :
  exists self', expand_tree (Ext:=world) open_road = (Ok tt, self').
Proof. eexists. vm_compute. reflexivity. Qed.

Lemma open_road_sound : tree_sound (tree open_road).
Proof.
  split; [|split].
  - cbn. apply NoDup_singleton.
  - repeat constructor.
  - constructor; [|constructor]. cbn. intros pid H. discriminate.
Qed.

Lemma coarse_steer :
  constrained_steer (Ext:=world) coarse (Some root_node) target1 30%Q = Ok (Some stuck).
Proof. vm_compute. reflexivity. Qed.

Lemma constrained_steer_node_witness :
  constrained_steer (Ext:=world) (snd (grow (Ext:=world) open_road)) (Some node1) target2 30%Q
  = Ok (Some node2_new) /\
  last (AnyNode.path node2_new) = Some (AnyNode.pose node2_new).
Proof.
  split; [vm_compute; reflexivity|].
  assert (Hs : constrained_steer (Ext:=world) (snd (grow (Ext:=world) open_road))
                                 (Some node1) target2 30%Q = Ok (Some node2_new))
    by (vm_compute; reflexivity).
  exact (proj2 (proj2 (constrained_steer_node (Ext:=world) _ _ _ _ _ Hs))).
Defined.

Lemma coarse_resolution_witness :
  constrained_steer (Ext:=world) coarse (Some root_node) target1 30%Q = Ok (Some stuck) /\
  py_int (3 / path_resolution coarse) = 0%Z /\
  AnyNode.pose stuck = AnyNode.pose root_node.
Proof.
  split; [exact coarse_steer|].
  destruct (coarse_resolution_steers_to_first_sample (Ext:=world) coarse root_node target1
              stuck 30%Q) as [Hidx _].
  - vm_compute. reflexivity.
  - exact coarse_steer.
  - split; [exact Hidx|reflexivity].
Defined.

Lemma planning_appends_witness :
  exists r self' added,
    planning (Ext:=world) open_road = (Ok r, self') /\
    tree self' = tree open_road ++ added /\
    map fst added = ids_after (number_nodes open_road) (length added) /\
    number_nodes self' = (number_nodes open_road + Z.of_nat (length added))%Z.
Proof.
  destruct open_road_planned as (r & self' & Hrun).
  destruct (planning_appends (Ext:=world) _ _ _ Hrun)
    as (added & Htree & _ & Hids & _ & Hnum & _).
  exists r, self', added. repeat split; assumption.
Defined.

Lemma planning_stored_path_witness :
  exists r self',
    planning (Ext:=world) open_road = (Ok r, self') /\
    match r with
    | Some p => exists P, path self' = Some P /\ Path.path P = p
    | None => path self' = path open_road
    end.
Proof.
  destruct open_road_planned as (r & self' & Hrun). exists r, self'.
  split; [exact Hrun|]. exact (planning_stored_path (Ext:=world) _ _ _ Hrun).
Defined.

Lemma planning_draws_witness :
  exists r self',
    planning (Ext:=world) open_road = (Ok r, self') /\
    rng self' = Nat.iter 2 (draw (Ext:=world)) (rng open_road).
Proof.
  destruct open_road_planned as (r & self' & Hrun). exists r, self'.
  split; [exact Hrun|].
  destruct (planning_draws (Ext:=world) _ _ _ Hrun) as (k & _ & Hrng & Hfull).
  rewrite Hrng. rewrite (Hfull (or_introl eq_refl)). reflexivity.
Defined.

Lemma expand_tree_appends_witness :
  exists self',
    expand_tree (Ext:=world) open_road = (Ok tt, self') /\
    path self' = path open_road /\
    rng self' = Nat.iter 2 (draw (Ext:=world)) (rng open_road).
Proof.
  destruct open_road_expanded as (self' & Hrun). exists self'.
  split; [exact Hrun|].
  destruct (expand_tree_appends (Ext:=world) _ _ Hrun) as (Hpath & Hrng & _).
  split; assumption.
Defined.

Lemma tree_stays_sound_witness :
  exists r self',
    planning (Ext:=world) open_road = (Ok r, self') /\ tree_sound (tree self').
Proof.
  destruct open_road_planned as (r & self' & Hrun). exists r, self'.
  split; [exact Hrun|].
  exact (proj1 (tree_stays_sound (Ext:=world) open_road self' open_road_sound) r Hrun).
Defined.

(** At a resolution of 4 the tree does not leave the origin: both nodes that
    [planning] adds sit on the root's pose, at no cost. *)
Example coarse_planning_goes_nowhere :
  map (fun kv => (fst kv, AnyNode.pose (snd kv), AnyNode.cost (snd kv)))
      (tree (snd (planning (Ext:=world) coarse)))
  = [("0", origin, 0%Q); ("1", origin, 0%Q); ("2", origin, 0%Q)].
Proof. vm_compute. reflexivity. Qed.

End DemoRunFacts.
